(** * Shallow embedding of [src/password_cracking_curve.py]

    The development embeds [HashcatStatusParser.parse_status_file] (the
    status-record reader and the curve segmenter) and the per-curve
    downsampling step of [PasswordCrackingApp._create_figure].

    Modelling choices:
    - a decoded JSON value is a Python value [pyval]; JSON numbers are the
      integers the producing tool writes (floats are outside this model);
    - a [dict] is the list of its items; looking a key up returns its first
      binding;
    - Python exceptions are the [Error] branch of [result]; only
      [json.JSONDecodeError] is caught by the source. Decoding is the
      section variable [json_loads], whose result is a value, the caught
      [json.JSONDecodeError], or another exception it raises (such as
      [RecursionError] on deep nesting, or [ValueError] on an integer of
      more than 4300 digits);
    - a line of the file is the string of its bytes; [open(..., encoding=
      "utf-8")] decodes it strictly ([utf8_chars]), and [str.strip()]
      removes the code points [str.isspace] accepts. Python decodes the
      file by chunks, so a line that is not UTF-8 raises
      [UnicodeDecodeError] possibly before earlier lines of its chunk are
      processed: the parse raises in both cases, and only the kind of the
      exception may differ;
    - the percentage [(cracked / total) * 100] is an IEEE 754 double
      ([SpecFloat] with 53-bit mantissa and maximal exponent 1024): the
      integer division is correctly rounded and raises [OverflowError] when
      the rounded quotient is not finite, the product by [100.0] is rounded
      and overflows to infinity. *)

From Stdlib Require Import List String Ascii ZArith Bool Lia SpecFloat.
Import ListNotations.

Local Open Scope Z_scope.

(** ** Python values produced by [json.loads] *)

Set Warnings "-register-all".

Inductive pyval : Type :=
| PNone
| PBool (b : bool)
| PInt (z : Z)
| PStr (s : string)
| PList (l : list pyval)
| PDict (d : list (string * pyval)).

(** The exceptions the parse can raise (none of them is caught). *)
Inductive exn : Type :=
| IndexError
| KeyError
| TypeError
| AttributeError
| ZeroDivisionError
| OverflowError
| UnicodeDecodeError
| RecursionError
| ValueError.

Inductive result (A : Type) : Type :=
| Ok (a : A)
| Error (e : exn).
Arguments Ok {A} a.
Arguments Error {A} e.

Definition bind {A B : Type} (m : result A) (f : A -> result B) : result B :=
  match m with
  | Ok a => f a
  | Error e => Error e
  end.

Notation "x <- m ;; k" := (bind m (fun x => k))
  (at level 61, m at next level, right associativity).

(** ** Python builtins used by the parser *)

Fixpoint dict_get (d : list (string * pyval)) (k : string) : option pyval :=
  match d with
  | [] => None
  | (k', v) :: t => if String.eqb k' k then Some v else dict_get t k
  end.

(** [obj.get(k, default)]: only a dict has a [get] method. *)
Definition py_get (obj : pyval) (k : string) (default : pyval) : result pyval :=
  match obj with
  | PDict d => Ok (match dict_get d k with Some v => v | None => default end)
  | _ => Error AttributeError
  end.

(** [v[i]] for a non-negative integer index [i]. JSON object keys are
    strings, so an integer subscript of a dict is a [KeyError]. *)
Definition py_subscript (v : pyval) (i : nat) : result pyval :=
  match v with
  | PList l => match nth_error l i with Some x => Ok x | None => Error IndexError end
  | PStr s => match String.get i s with
              | Some c => Ok (PStr (String c EmptyString))
              | None => Error IndexError
              end
  | PDict _ => Error KeyError
  | _ => Error TypeError
  end.

(** Numeric view of a value: [bool] is a subclass of [int]. *)
Definition py_num (v : pyval) : option Z :=
  match v with
  | PInt z => Some z
  | PBool true => Some 1
  | PBool false => Some 0
  | _ => None
  end.

(** [acc + v] with an integer accumulator. *)
Definition py_add (acc : Z) (v : pyval) : result Z :=
  match py_num v with Some z => Ok (acc + z) | None => Error TypeError end.

(** [v > 0]. *)
Definition py_gt0 (v : pyval) : result bool :=
  match py_num v with Some z => Ok (0 <? z) | None => Error TypeError end.

(** *** Floats *)

(** [a / b] on two integers: the correctly rounded double of the exact
    quotient; [OverflowError] when that is not finite, and a zero carrying
    the sign of the quotient ([0 / -5] is [-0.0]). *)
Definition py_int_truediv (a b : Z) : result spec_float :=
  if b =? 0 then Error ZeroDivisionError
  else if a =? 0 then Ok (S754_zero (b <? 0))
  else let '(q, e, l) := SFdiv_core_binary 53 1024 (Z.abs a) 0 (Z.abs b) 0 in
       match binary_round_aux 53 1024 (xorb (a <? 0) (b <? 0)) q e l with
       | S754_infinity _ => Error OverflowError
       | f => Ok f
       end.

(** The double [100.0] (the integer [100] promoted by [float * int]). *)
Definition hundred : spec_float := binary_normalize 53 1024 100 0 false.

(** The double [f] is the integer [v]. *)
Definition float_denotes (f : spec_float) (v : Z) : bool :=
  match f with
  | S754_zero _ => v =? 0
  | S754_finite s m e =>
      if 0 <=? e then cond_Zopp s (Zpos m * 2 ^ e) =? v
      else cond_Zopp s (Zpos m) =? v * 2 ^ (- e)
  | _ => false
  end.

(** [s.startswith(p)]. *)
Definition py_startswith (s p : string) : bool := String.prefix p s.

(** *** Strict UTF-8 decoding and [str.strip()] *)

Definition byte_val (c : ascii) : Z := Z.of_nat (nat_of_ascii c).

Definition byte_in (c : ascii) (lo hi : Z) : bool := (lo <=? byte_val c) && (byte_val c <=? hi).

(** A lead byte: the number of continuation bytes, and the range allowed for
    the first of them (the strict decoder rejects overlong forms,
    surrogates and code points above [U+10FFFF]). *)
Definition utf8_lead (c : ascii) : option (nat * Z * Z) :=
  if byte_in c 0 127 then Some (0%nat, 0, 0)
  else if byte_in c 194 223 then Some (1%nat, 128, 191)
  else if byte_in c 224 224 then Some (2%nat, 160, 191)
  else if byte_in c 225 236 then Some (2%nat, 128, 191)
  else if byte_in c 237 237 then Some (2%nat, 128, 159)
  else if byte_in c 238 239 then Some (2%nat, 128, 191)
  else if byte_in c 240 240 then Some (3%nat, 144, 191)
  else if byte_in c 241 243 then Some (3%nat, 128, 191)
  else if byte_in c 244 244 then Some (3%nat, 128, 143)
  else None.

Definition cont_byte (c : ascii) : bool := byte_in c 128 191.

Definition cont_bits (c : ascii) : Z := Z.land (byte_val c) 63.

(** [bytes.decode("utf-8")]: the code points with their encodings, or
    [None] where the strict decoder raises [UnicodeDecodeError]. *)
Fixpoint utf8_chars (s : string) : option (list (Z * string)) :=
  match s with
  | EmptyString => Some []
  | String c1 t1 =>
      match utf8_lead c1 with
      | None => None
      | Some (O, _, _) =>
          match utf8_chars t1 with
          | Some cs => Some ((byte_val c1, String c1 EmptyString) :: cs)
          | None => None
          end
      | Some (S O, lo, hi) =>
          match t1 with
          | String c2 t2 =>
              if byte_in c2 lo hi then
                match utf8_chars t2 with
                | Some cs =>
                    Some ((Z.lor (Z.shiftl (Z.land (byte_val c1) 31) 6) (cont_bits c2),
                           String c1 (String c2 EmptyString)) :: cs)
                | None => None
                end
              else None
          | EmptyString => None
          end
      | Some (S (S O), lo, hi) =>
          match t1 with
          | String c2 (String c3 t3) =>
              if byte_in c2 lo hi && cont_byte c3 then
                match utf8_chars t3 with
                | Some cs =>
                    Some ((Z.lor (Z.shiftl (Z.land (byte_val c1) 15) 12)
                                 (Z.lor (Z.shiftl (cont_bits c2) 6) (cont_bits c3)),
                           String c1 (String c2 (String c3 EmptyString))) :: cs)
                | None => None
                end
              else None
          | _ => None
          end
      | Some (_, lo, hi) =>
          match t1 with
          | String c2 (String c3 (String c4 t4)) =>
              if byte_in c2 lo hi && cont_byte c3 && cont_byte c4 then
                match utf8_chars t4 with
                | Some cs =>
                    Some ((Z.lor (Z.shiftl (Z.land (byte_val c1) 7) 18)
                                 (Z.lor (Z.shiftl (cont_bits c2) 12)
                                        (Z.lor (Z.shiftl (cont_bits c3) 6) (cont_bits c4))),
                           String c1 (String c2 (String c3 (String c4 EmptyString)))) :: cs)
                | None => None
                end
              else None
          | _ => None
          end
      end
  end.

(** [str.isspace()] on one code point (the Unicode whitespace of Python 3;
    [str.strip()] without argument removes exactly these). *)
Definition py_isspace (cp : Z) : bool :=
  ((9 <=? cp) && (cp <=? 13)) || ((28 <=? cp) && (cp <=? 32)) ||
  (cp =? 133) || (cp =? 160) || (cp =? 5760) ||
  ((8192 <=? cp) && (cp <=? 8202)) || (cp =? 8232) || (cp =? 8233) ||
  (cp =? 8239) || (cp =? 8287) || (cp =? 12288).

Fixpoint lstrip (cs : list (Z * string)) : list (Z * string) :=
  match cs with
  | [] => []
  | (cp, b) :: t => if py_isspace cp then lstrip t else cs
  end.

(** [line.strip()] on the decoded line, encoded back to UTF-8 (the encoding
    is injective, so comparing encodings compares the strings). *)
Definition py_strip (cs : list (Z * string)) : string :=
  String.concat "" (map snd (rev (lstrip (rev (lstrip cs))))).

(** [s.replace(old, new)] for a non-empty [old]: occurrences are replaced
    left to right without overlap; [skip] counts the characters of the
    occurrence just replaced that are still to be passed over. *)
Fixpoint replace_aux (old new : string) (s : string) (skip : nat) : string :=
  match s with
  | EmptyString => EmptyString
  | String c t =>
      match skip with
      | S k => replace_aux old new t k
      | O => if String.prefix old s
             then String.append new (replace_aux old new t (String.length old - 1))
             else String c (replace_aux old new t O)
      end
  end.

(** The method [replace] exists on strings only. *)
Definition py_replace (v : pyval) (old new : string) : result string :=
  match v with
  | PStr s => Ok (replace_aux old new s O)
  | _ => Error AttributeError
  end.

(** [str(v)] as used by the f-string [f"{time_start}/{guess_base}"]. *)
Definition digit_char (d : Z) : ascii := ascii_of_nat (48 + Z.to_nat d).

Fixpoint digits_aux (fuel : nat) (n : Z) (acc : string) : string :=
  match fuel with
  | O => acc
  | S f =>
      let acc' := String (digit_char (n mod 10)) acc in
      if n <? 10 then acc' else digits_aux f (n / 10) acc'
  end.

Definition digits (n : Z) : string :=
  digits_aux (S (Z.to_nat (Z.log2 n))) n EmptyString.

Definition int_str (z : Z) : string :=
  if z <? 0 then String "-" (digits (- z)) else digits z.

Definition dq_char : ascii := ascii_of_nat 34.
Definition sq_char : ascii := "'"%char.
Definition bs_char : ascii := ascii_of_nat 92.

Definition hex_char (d : nat) : ascii :=
  if Nat.ltb d 10 then ascii_of_nat (48 + d) else ascii_of_nat (87 + d).

(** Escapes of [repr(str)]: backslash, the chosen quote, [\n], [\r], [\t],
    and other control characters as [\xNN]; characters above 127 are kept. *)
Fixpoint repr_escape (q : ascii) (s : string) : string :=
  match s with
  | EmptyString => EmptyString
  | String c t =>
      let n := nat_of_ascii c in
      let rest := repr_escape q t in
      if Ascii.eqb c bs_char then String bs_char (String bs_char rest)
      else if Ascii.eqb c q then String bs_char (String q rest)
      else if Nat.eqb n 10 then String bs_char (String "n" rest)
      else if Nat.eqb n 13 then String bs_char (String "r" rest)
      else if Nat.eqb n 9 then String bs_char (String "t" rest)
      else if Nat.ltb n 32 || Nat.eqb n 127 then
        String bs_char (String "x" (String (hex_char (n / 16))
                                            (String (hex_char (n mod 16)) rest)))
      else String c rest
  end.

Fixpoint has_char (c : ascii) (s : string) : bool :=
  match s with
  | EmptyString => false
  | String c' t => Ascii.eqb c c' || has_char c t
  end.

(** [repr(s)]: double quotes when [s] holds a single quote and no double one. *)
Definition repr_str (s : string) : string :=
  let q := if has_char sq_char s && negb (has_char dq_char s) then dq_char else sq_char in
  String q (String.append (repr_escape q s) (String q EmptyString)).

Fixpoint py_repr (v : pyval) : string :=
  match v with
  | PNone => "None"
  | PBool true => "True"
  | PBool false => "False"
  | PInt z => int_str z
  | PStr s => repr_str s
  | PList l => String.append "[" (String.append (String.concat ", " (map py_repr l)) "]")
  | PDict d =>
      String.append "{"
        (String.append
           (String.concat ", "
              (map (fun kv => String.append (repr_str (fst kv))
                                (String.append ": " (py_repr (snd kv)))) d)) "}")
  end.

Definition py_str (v : pyval) : string :=
  match v with
  | PStr s => s
  | _ => py_repr v
  end.

(** [l1 == l2] on lists, element-wise with [eq]. *)
Fixpoint list_eqb (eq : pyval -> pyval -> bool) (l1 l2 : list pyval) : bool :=
  match l1, l2 with
  | [], [] => true
  | x :: xs, y :: ys => eq x y && list_eqb eq xs ys
  | _, _ => false
  end.

(** The items of [d] whose key is not in [seen] (the first binding of each
    key) have an [eq]-equal binding in [d2]. *)
Fixpoint dict_items_eqb (eq : pyval -> pyval -> bool) (d2 : list (string * pyval))
    (seen : list string) (d : list (string * pyval)) : bool :=
  match d with
  | [] => true
  | (k, v) :: t =>
      (if existsb (String.eqb k) seen then true
       else match dict_get d2 k with Some w => eq v w | None => false end)
      && dict_items_eqb eq d2 (k :: seen) t
  end.

(** [a == b] on decoded values: numbers and booleans compare numerically,
    lists element-wise, dicts by their items (each key of [d1] is bound in
    [d2] to an equal value, and every key of [d2] is a key of [d1]). *)
Fixpoint py_eq (a b : pyval) {struct a} : bool :=
  match a, b with
  | PNone, PNone => true
  | PStr s, PStr t => String.eqb s t
  | PList l1, PList l2 => list_eqb py_eq l1 l2
  | PDict d1, PDict d2 =>
      dict_items_eqb py_eq d2 [] d1
      && forallb (fun kv => existsb (String.eqb (fst kv)) (map fst d1)) d2
  | _, _ =>
      match py_num a, py_num b with
      | Some x, Some y => Z.eqb x y
      | _, _ => false
      end
  end.

(** ** The parser configuration and its running state *)

(** [HashcatStatusParser(filename, x_axis_type, y_axis_type, status_timer)] *)
Record parser : Type := mk_parser {
  filename : string;
  x_axis_type : string;
  y_axis_type : string;
  status_timer : Z
}.

(** A point's y value: the raw [cracked] value in count mode (any JSON
    value), the anchor [0], or the percentage float. *)
Inductive yval : Type :=
| YObj (v : pyval)
| YFloat (f : spec_float).

(** [key = (f"{time_start}/{guess_base}", guess_mod)] *)
Definition key : Type := (string * pyval)%type.

Definition key_eqb (k1 k2 : key) : bool :=
  String.eqb (fst k1) (fst k2) && py_eq (snd k1) (snd k2).

(** [key != current_identifier]: [current_identifier] starts as [""],
    which is [None] here and equals no tuple. *)
Definition same_identifier (k : key) (cur : option key) : bool :=
  match cur with
  | None => false
  | Some c => key_eqb k c
  end.

Record state : Type := mk_state {
  guesses : Z;
  current_identifier : option key;
  elapsed_seconds : Z;
  curves_x : list (list Z);
  curves_y : list (list yval);
  label_list : list key
}.

Definition init_state : state := mk_state 0 None 0 [] [] [].

(** ** The per-record processing (lines 52 to 97) *)

(** [(cracked / total) * 100]: [cracked] must be a number. *)
Definition py_percent (cracked total : pyval) : result yval :=
  match py_num cracked, py_num total with
  | Some c, Some t => q <- py_int_truediv c t ;; Ok (YFloat (SFmul 53 1024 q hundred))
  | _, _ => Error TypeError
  end.

(** Lines 55-57 and 65-69: [recovered = data.get("recovered_hashes", [0, 0])]
    is split into [cracked] and [total], and the y value computed. *)
Definition recovered_y (p : parser) (recovered : pyval) : result yval :=
  cracked <- py_subscript recovered 0 ;;
  r1 <- py_subscript recovered 1 ;;
  pos <- py_gt0 r1 ;;
  let total := if pos then r1 else PInt 1 in
  if String.eqb (y_axis_type p) "count" then Ok (YObj cracked)
  else py_percent cracked total.

(** Lines 52-69: the new [guesses], the x value and the y value. *)
Definition axis_values (p : parser) (st : state) (data : pyval)
  : result (Z * Z * yval) :=
  progress_l <- py_get data "progress" (PList [PInt 0]) ;;
  progress <- py_subscript progress_l 0 ;;
  guesses' <- py_add (guesses st) progress ;;
  recovered <- py_get data "recovered_hashes" (PList [PInt 0; PInt 0]) ;;
  let x_value := if String.eqb (x_axis_type p) "time"
                 then elapsed_seconds st else guesses' in
  y_value <- recovered_y p recovered ;;
  Ok (guesses', x_value, y_value).

Definition potfile_long : string := "autocat_new_cracked_potfile".

(** Lines 72-77: the attack key of a record. *)
Definition attack_key (data : pyval) : result key :=
  guess <- py_get data "guess" (PDict []) ;;
  guess_base0 <- py_get guess "guess_base" (PStr "unknown") ;;
  guess_base <- py_replace guess_base0 potfile_long "potfile" ;;
  guess' <- py_get data "guess" (PDict []) ;;
  guess_mod <- py_get guess' "guess_mod" PNone ;;
  time_start <- py_get data "time_start" (PStr "unknown") ;;
  Ok (String.append (py_str time_start) (String.append "/" guess_base), guess_mod).

(** [curves[-1][-1]] *)
Definition last_point {A : Type} (l : list (list A)) : result A :=
  match last l [] with
  | [] => Error IndexError
  | c => match rev c with a :: _ => Ok a | [] => Error IndexError end
  end.

(** [curves[-1].append(a)] *)
Fixpoint append_last {A : Type} (l : list (list A)) (a : A) : result (list (list A)) :=
  match l with
  | [] => Error IndexError
  | [c] => Ok [c ++ [a]]
  | c :: t => r <- append_last t a ;; Ok (c :: r)
  end.

(** Lines 80-94: the phase-transition logic. *)
Definition update_curves (st : state) (x : Z) (y : yval) (k : key) : result state :=
  if negb (same_identifier k (current_identifier st)) then
    match current_identifier st with
    | Some _ =>
        (* Close previous curve *)
        lx <- last_point (curves_x st) ;;
        let cx := curves_x st ++ [[lx; x]] in
        ly <- last_point (curves_y st) ;;
        let cy := curves_y st ++ [[ly; y]] in
        Ok (mk_state (guesses st) (Some k) (elapsed_seconds st) cx cy (label_list st ++ [k]))
    | None =>
        (* First curve *)
        Ok (mk_state (guesses st) (Some k) (elapsed_seconds st)
                     (curves_x st ++ [[0; x]]) (curves_y st ++ [[YObj (PInt 0); y]])
                     (label_list st ++ [k]))
    end
  else
    (* Continue current curve *)
    cx <- append_last (curves_x st) x ;;
    cy <- append_last (curves_y st) y ;;
    Ok (mk_state (guesses st) (current_identifier st) (elapsed_seconds st) cx cy (label_list st)).

(** The body of the [try] block (lines 52-97) for a decoded [data]. *)
Definition process_record (p : parser) (st : state) (data : pyval) : result state :=
  v <- axis_values p st data ;;
  let '(guesses', x_value, y_value) := v in
  k <- attack_key data ;;
  st' <- update_curves (mk_state guesses' (current_identifier st) (elapsed_seconds st)
                                 (curves_x st) (curves_y st) (label_list st))
                       x_value y_value k ;;
  Ok (mk_state (guesses st') (current_identifier st') (elapsed_seconds st' + status_timer p)
               (curves_x st') (curves_y st') (label_list st')).

(** The loop over already-decoded records. *)
Fixpoint process_records (p : parser) (st : state) (ds : list pyval) : result state :=
  match ds with
  | [] => Ok st
  | d :: t => st' <- process_record p st d ;; process_records p st' t
  end.

Definition output : Type := (list (list Z) * list (list yval) * list key)%type.

Definition state_output (st : state) : output :=
  (curves_x st, curves_y st, label_list st).

(** ** Downsampling (lines 253-264) *)

(** [l[::step]]: keep the head, pass over [step - 1] elements, repeat
    ([fuel] bounds the number of rounds by the length of [l]). *)
Fixpoint slice_step_aux {A : Type} (fuel step : nat) (l : list A) : list A :=
  match fuel with
  | O => []
  | S f => match l with
           | [] => []
           | a :: t => a :: slice_step_aux f step (skipn (step - 1) t)
           end
  end.

Definition slice_step {A : Type} (step : nat) (l : list A) : list A :=
  slice_step_aux (List.length l) step l.

(** [l[-1]] *)
Definition py_last {A : Type} (l : list A) : result A :=
  match rev l with a :: _ => Ok a | [] => Error IndexError end.

Definition sample_rate : nat := 60.

(** The downsampling of curve [k]: [xs = curves_x[k]], [ys = curves_y[k]]. *)
Definition downsample {A B : Type} (xs : list A) (ys : list B) : result (list A * list B) :=
  if Nat.ltb 1000 (List.length xs) then
    let xs_s := slice_step sample_rate xs in
    let ys_s := slice_step sample_rate ys in
    if negb (Nat.eqb (Nat.modulo (List.length xs - 1) sample_rate) 0) then
      lx <- py_last xs ;;
      ly <- py_last ys ;;
      Ok (xs_s ++ [lx], ys_s ++ [ly])
    else Ok (xs_s, ys_s)
  else Ok (xs, ys).

(** ** The reader and [parse_status_file] *)

(** What [json.loads(line)] does: return a value, raise the
    [json.JSONDecodeError] the loop catches, or raise another exception. *)
Inductive json_result : Type :=
| JValue (v : pyval)
| JDecodeError
| JRaise (e : exn).

Section Reader.

(** [json.loads] *)
Variable json_loads : string -> json_result.

(** The [for line in f] loop (lines 43-100); [raw] is the line's bytes. *)
Fixpoint parse_lines (p : parser) (st : state) (lines : list string) : result state :=
  match lines with
  | [] => Ok st
  | raw :: rest =>
      match utf8_chars raw with
      | None => Error UnicodeDecodeError
      | Some chars =>
          let line := py_strip chars in
          if negb (py_startswith line "{") then parse_lines p st rest
          else match json_loads line with
               | JDecodeError => parse_lines p st rest
               | JRaise e => Error e
               | JValue data => st' <- process_record p st data ;; parse_lines p st' rest
               end
      end
  end.

(** [parse_status_file]: [fs name] is [None] when [Path(name)] does not exist
    and otherwise the lines [open(name)] yields. *)
Definition parse_status_file (p : parser) (fs : string -> option (list string))
  : result output :=
  match fs (filename p) with
  | None => Ok ([], [], [])
  | Some lines => st <- parse_lines p init_state lines ;; Ok (state_output st)
  end.

(** The records the reader yields: the decoded candidate lines, in order, up
    to the first line whose reading raises, with that exception. *)
Fixpoint read_records (lines : list string) : list pyval * option exn :=
  match lines with
  | [] => ([], None)
  | raw :: rest =>
      match utf8_chars raw with
      | None => ([], Some UnicodeDecodeError)
      | Some chars =>
          let line := py_strip chars in
          if negb (py_startswith line "{") then read_records rest
          else match json_loads line with
               | JDecodeError => read_records rest
               | JRaise e => ([], Some e)
               | JValue data => let '(ds, err) := read_records rest in (data :: ds, err)
               end
      end
  end.

(** The record stream of the file, or the exception reading it raises. *)
Definition source_records (p : parser) (fs : string -> option (list string))
  : result (list pyval) :=
  match fs (filename p) with
  | None => Ok []
  | Some lines =>
      match read_records lines with
      | (ds, None) => Ok ds
      | (_, Some e) => Error e
      end
  end.

End Reader.

(** ** Definitions used by the statements *)

(** The last element of a list, if any. *)
Definition last_opt {A : Type} (l : list A) : option A :=
  match rev l with a :: _ => Some a | [] => None end.

(** Consecutive curves share their boundary point: the last point of each
    curve is the first point of the next one. *)
Fixpoint stitched {A : Type} (l : list (list A)) : Prop :=
  match l with
  | [] => True
  | c1 :: t => match t with
               | [] => True
               | c2 :: _ => last_opt c1 = hd_error c2 /\ stitched t
               end
  end.

(** The shape of the segmenter's state between two records. *)
Definition curves_inv (st : state) : Prop :=
  List.length (curves_x st) = List.length (curves_y st) /\
  List.length (curves_y st) = List.length (label_list st) /\
  (current_identifier st = None <-> curves_x st = []) /\
  Forall (fun c => (2 <= List.length c)%nat) (curves_x st) /\
  Forall (fun c => (2 <= List.length c)%nat) (curves_y st) /\
  stitched (curves_x st) /\ stitched (curves_y st).

(** One step appends one element to each of the three sequences, or to none. *)
Definition one_or_none (st st' : state) : Prop :=
  (List.length (curves_x st') = List.length (curves_x st) /\
   List.length (curves_y st') = List.length (curves_y st) /\
   List.length (label_list st') = List.length (label_list st)) \/
  (List.length (curves_x st') = S (List.length (curves_x st)) /\
   List.length (curves_y st') = S (List.length (curves_y st)) /\
   List.length (label_list st') = S (List.length (label_list st))).

(** The attack keys of a record stream. *)
Fixpoint record_keys (ds : list pyval) : result (list key) :=
  match ds with
  | [] => Ok []
  | d :: t => k <- attack_key d ;; ks <- record_keys t ;; Ok (k :: ks)
  end.

(** Number of maximal runs of equal keys: one run for the first key, and one
    more at each key that differs from the key just before it. *)
Fixpoint run_boundaries (prev : key) (ks : list key) : nat :=
  match ks with
  | [] => O
  | k :: t => ((if key_eqb k prev then O else 1) + run_boundaries k t)%nat
  end.

Definition run_count (ks : list key) : nat :=
  match ks with
  | [] => O
  | k :: t => S (run_boundaries k t)
  end.




(** A line the reader drops: it is UTF-8, and after [strip] it does not
    start with [{], or [json.loads] raises [json.JSONDecodeError] on it. *)
Definition junk_line (json_loads : string -> json_result) (line : string) : bool :=
  match utf8_chars line with
  | None => false
  | Some chars =>
      negb (py_startswith (py_strip chars) "{") ||
      match json_loads (py_strip chars) with JDecodeError => true | _ => false end
  end.

(** [ls'] is [ls] with junk lines inserted anywhere. *)
Inductive junk_extension (json_loads : string -> json_result)
  : list string -> list string -> Prop :=
| je_nil : junk_extension json_loads [] []
| je_keep l ls ls' :
    junk_extension json_loads ls ls' -> junk_extension json_loads (l :: ls) (l :: ls')
| je_junk l ls ls' :
    junk_line json_loads l = true ->
    junk_extension json_loads ls ls' -> junk_extension json_loads ls (l :: ls').

(** A record of Scenario B: [progress = [10]], [recovered_hashes = [2, 100]],
    [guess_base = "dict1"], with the given [time_start] and [guess_mod]
    entries (absent when [None]). *)
Definition scenario_b_record (ts gm : option pyval) (r : pyval) : Prop :=
  exists d g,
    r = PDict d /\
    dict_get d "progress" = Some (PList [PInt 10]) /\
    dict_get d "recovered_hashes" = Some (PList [PInt 2; PInt 100]) /\
    dict_get d "guess" = Some (PDict g) /\
    dict_get g "guess_base" = Some (PStr "dict1") /\
    dict_get g "guess_mod" = gm /\
    dict_get d "time_start" = ts.

(** ** Sample inputs *)

Definition nl : string := String (ascii_of_nat 10) EmptyString.
Definition dq : string := String dq_char EmptyString.
Definition jstr (s : string) : string := String.append dq (String.append s dq).
Definition fld (k : string) (v : pyval) : string * pyval := (k, v).

Definition default_parser : parser := mk_parser "status.json" "guesses" "percentage" 1.

Definition rec_b (gb : string) : pyval :=
  PDict [fld "progress" (PList [PInt 10]); fld "recovered_hashes" (PList [PInt 2; PInt 100]);
         fld "guess" (PDict [fld "guess_base" (PStr gb)])].

Definition rec_mod (gm : string) : pyval :=
  PDict [fld "progress" (PList [PInt 10]); fld "recovered_hashes" (PList [PInt 2; PInt 100]);
         fld "guess" (PDict [fld "guess_base" (PStr "dict1"); fld "guess_mod" (PStr gm)])].

(** [{"progress": [10], "recovered_hashes": [2, 100], "guess": {"guess_base": gb}}] *)
Definition line_b (gb : string) : string :=
  (String.concat "" ["{"; jstr "progress"; ": [10], "; jstr "recovered_hashes"; ": [2, 100], ";
                     jstr "guess"; ": {"; jstr "guess_base"; ": "; jstr gb; "}}"])%string.

(** [{"progress": []}] *)
Definition line_empty_progress : string :=
  (String.concat "" ["{"; jstr "progress"; ": []}"])%string.

(** A partial line, as left by a write in progress. *)
Definition line_partial : string := (String.concat "" ["{"; jstr "progress"; ": [1"])%string.

Definition line_text : string := "Session..........: hashcat".

(** [{"a": ] followed by 5000 [[]. *)
Definition line_deep : string :=
  String.append (String.concat "" ["{"; jstr "a"; ": "])%string
                (Pos.iter (String "["%char) EmptyString 5000).

(** [{"recovered_hashes": [10 ** 400, 1]}] (written out in decimal). *)
Definition line_big_cracked : string :=
  (String.concat "" ["{"; jstr "recovered_hashes"; ": [1";
                     Pos.iter (String "0"%char) EmptyString 400; ", 1]}"])%string.

(** The byte [0xFF], which is not UTF-8. *)
Definition line_not_utf8 : string := String (ascii_of_nat 255) EmptyString.

(** A no-break space ([U+00A0], bytes [C2 A0]) before the [dict1] record. *)
Definition line_nbsp_b : string :=
  String (ascii_of_nat 194) (String (ascii_of_nat 160) (line_b "dict1")).

(** [json.loads] on the sample lines. *)
Definition sample_loads (s : string) : json_result :=
  if String.eqb s (line_b "dict1") then JValue (rec_b "dict1")
  else if String.eqb s (line_b potfile_long) then JValue (rec_b potfile_long)
  else if String.eqb s line_empty_progress then JValue (PDict [fld "progress" (PList [])])
  else if String.eqb s line_big_cracked
  then JValue (PDict [fld "recovered_hashes" (PList [PInt (10 ^ 400); PInt 1])])
  else if String.eqb s line_deep then JRaise RecursionError
  else JDecodeError.

Definition sample_lines : list string :=
  [String.append (line_b "dict1") nl; String.append (line_b "dict1") nl;
   String.append (line_b potfile_long) nl].

Definition sample_lines_noisy : list string :=
  [String.append line_text nl; String.append (line_b "dict1") nl; String.append line_partial nl;
   String.append (line_b "dict1") nl; String.append (line_b potfile_long) nl; nl].

(** Scenario B of the input format: three identical [dict1] records. *)
Definition scenario_b_lines : list string :=
  [String.append (line_b "dict1") nl; String.append (line_b "dict1") nl;
   String.append (line_b "dict1") nl].

Definition file_of (lines : list string) (name : string) : option (list string) :=
  if String.eqb name "status.json" then Some lines else None.

(** The double [2.0], the percentage of [recovered_hashes = [2, 100]]. *)
Definition float_2 : spec_float := S754_finite false 4503599627370496 (-51).

(** The parse of [sample_lines]: two phases, stitched at [(20, 2)]. *)
Definition sample_cx : list (list Z) := [[0; 10; 20]; [20; 30]].
Definition sample_cy : list (list yval) :=
  [[YObj (PInt 0); YFloat float_2; YFloat float_2]; [YFloat float_2; YFloat float_2]].
Definition sample_lb : list key :=
  [("unknown/dict1"%string, PNone); ("unknown/potfile"%string, PNone)].

(** The state after the single record [rec_b "dict1"]. *)
Definition st_after_dict1 : state :=
  mk_state 10 (Some ("unknown/dict1"%string, PNone)) 1 [[0; 10]] [[YObj (PInt 0); YFloat float_2]]
           [("unknown/dict1"%string, PNone)].

(** The state after [rec_b "dict1"] then [rec_b potfile_long]. *)
Definition st_after_potfile : state :=
  mk_state 20 (Some ("unknown/potfile"%string, PNone)) 2
           [[0; 10]; [10; 20]] [[YObj (PInt 0); YFloat float_2]; [YFloat float_2; YFloat float_2]]
           [("unknown/dict1"%string, PNone); ("unknown/potfile"%string, PNone)].

(** ** The dashboard ([PasswordCrackingApp], lines 105-299, and [main]) *)

(** [s.split(sep)] for a one-character separator. *)
Fixpoint split_char (sep : ascii) (s : string) : list string :=
  match s with
  | EmptyString => [EmptyString]
  | String c t =>
      match split_char sep t with
      | [] => []
      | w :: ws => if Ascii.eqb c sep then EmptyString :: w :: ws else String c w :: ws
      end
  end.

Definition slash : ascii := "/"%char.

(** [s.split('/')[-1]] *)
Definition last_piece (s : string) : result string := py_last (split_char slash s).

(** [sub in s] on strings. *)
Fixpoint py_in (sub s : string) : bool :=
  String.prefix sub s ||
  match s with
  | EmptyString => false
  | String _ t => py_in sub t
  end.

(** Line 268: the legend name of a curve labelled [(guess_base, guess_mod)]. *)
Definition attack_label (k : key) : result string :=
  let '(guess_base, guess_mod) := k in
  if negb (py_eq guess_mod PNone) then
    b <- last_piece guess_base ;;
    match guess_mod with
    | PStr m => m' <- last_piece m ;; Ok (String.append b (String.append " " m'))
    | _ => Error AttributeError
    end
  else last_piece guess_base.

(** Lines 271-274. *)
Definition potfile_color (no_potfile_highlight : bool) (guess_base : string) : option string :=
  if py_in "potfile" guess_base && negb no_potfile_highlight then Some "black"%string else None.

(** Line 243. *)
Definition colors : list string :=
  ["blue"; "red"; "green"; "orange"; "purple"; "brown"; "pink"; "gray"]%string.

(** The arguments of [go.Scatter] (lines 276-284). *)
Record trace : Type := mk_trace {
  trace_x : list Z;
  trace_y : list yval;
  marker_color : option string;
  trace_name : string;
  legendgroup : string;
  legendgrouptitle_text : option string
}.

(** [l[k]] for an index [0 <= k]. *)
Definition py_index {A : Type} (l : list A) (k : nat) : result A :=
  match nth_error l k with Some a => Ok a | None => Error IndexError end.

(** The body of [for k in range(len(curves_x))] (lines 252-284). *)
Definition curve_trace (no_potfile_highlight : bool) (file_name : string)
    (cx : list (list Z)) (cy : list (list yval)) (lb : list key) (k : nat) : result trace :=
  xs <- py_index cx k ;;
  sampled <- (if Nat.ltb 1000 (List.length xs)
              then ys <- py_index cy k ;; r <- downsample xs ys ;; Ok (Some r)
              else Ok None) ;;
  lab <- py_index lb k ;;
  name <- attack_label lab ;;
  let color := potfile_color no_potfile_highlight (fst lab) in
  xy <- match sampled with
        | Some r => Ok r
        | None => ys <- py_index cy k ;; Ok (xs, ys)
        end ;;
  Ok (mk_trace (fst xy) (snd xy) color name file_name
               (if Nat.eqb k 0 then Some file_name else None)).

Fixpoint map_result {A B : Type} (f : A -> result B) (l : list A) : result (list B) :=
  match l with
  | [] => Ok []
  | a :: t => b <- f a ;; r <- map_result f t ;; Ok (b :: r)
  end.

(** The traces of one file's parse. *)
Definition file_traces (no_potfile_highlight : bool) (file_name : string) (out : output)
  : result (list trace) :=
  let '(cx, cy, lb) := out in
  map_result (curve_trace no_potfile_highlight file_name cx cy lb) (seq 0 (List.length cx)).

(** [{file: HashcatStatusParser(...) for file in ...}]: assigning an existing
    key keeps its place and replaces its value. *)
Fixpoint dict_set {V : Type} (d : list (string * V)) (k : string) (v : V) : list (string * V) :=
  match d with
  | [] => [(k, v)]
  | (k', v') :: t => if String.eqb k' k then (k', v) :: t else (k', v') :: dict_set t k v
  end.

(** The attributes of a [PasswordCrackingApp] that its methods read or write. *)
Record PasswordCrackingApp : Type := mk_app {
  hashcat_files : list string;
  update_interval : pyval;
  app_x_axis_type : string;
  app_y_axis_type : string;
  app_status_timer : Z;
  no_potfile_highlight : bool;
  parsers : list (string * parser)
}.

(** [update_parsers] (lines 126-129). *)
Definition update_parsers (a : PasswordCrackingApp) : PasswordCrackingApp :=
  mk_app (hashcat_files a) (update_interval a) (app_x_axis_type a) (app_y_axis_type a)
         (app_status_timer a) (no_potfile_highlight a)
         (fold_left (fun d file =>
                       dict_set d file (mk_parser file (app_x_axis_type a) (app_y_axis_type a)
                                                 (app_status_timer a)))
                    (hashcat_files a) []).

(** The argument of [__init__]: a list, or any other single value. *)
Inductive files_arg : Type :=
| FilesList (l : list string)
| FilesOne (f : string).

(** [__init__] (lines 108-119) up to the Dash setup. *)
Definition init_app (arg : files_arg) : PasswordCrackingApp :=
  let files := match arg with FilesList l => l | FilesOne f => [f] end in
  update_parsers (mk_app files (PInt 10000) "guesses" "percentage" 1 false []).

Fixpoint repeat_str (s : string) (n : nat) : string :=
  match n with O => EmptyString | S k => String.append s (repeat_str s k) end.

(** [v * n]: numbers multiply, strings and lists repeat. *)
Definition py_mul (v : pyval) (n : Z) : result pyval :=
  match v with
  | PInt z => Ok (PInt (z * n))
  | PBool b => Ok (PInt ((if b then 1 else 0) * n))
  | PStr s => Ok (PStr (repeat_str s (Z.to_nat n)))
  | PList l => Ok (PList (List.concat (List.repeat l (Z.to_nat n))))
  | _ => Error TypeError
  end.

Record figure : Type := mk_figure {
  fig_traces : list trace;
  xaxis_title : string;
  yaxis_title : string
}.

(** A run of [main] (lines 336-343): exit status 1 with the message on
    [stderr], or the app that is started. *)
Inductive main_outcome : Type :=
| MainExit (code : Z) (stderr : string)
| MainRun (a : PasswordCrackingApp).

Section Figure.

Variable json_loads : string -> json_result.
(** The files: [None] where [Path(name).exists()] is false. *)
Variable fs : string -> option (list string).
(** [Path(file_path).stem] *)
Variable path_stem : string -> string.

(** The loop over [enumerate(self.parsers.items())] (lines 246-284). *)
Fixpoint figure_traces (nph : bool) (file_idx : nat) (ps : list (string * parser))
  : result (list trace) :=
  match ps with
  | [] => Ok []
  | (file_path, p) :: rest =>
      out <- parse_status_file json_loads p fs ;;
      let file_name := path_stem file_path in
      let file_color := nth (Nat.modulo file_idx (List.length colors)) colors EmptyString in
      ts <- file_traces nph file_name out ;;
      ts' <- figure_traces nph (S file_idx) rest ;;
      Ok (ts ++ ts')
  end.

(** [_create_figure] (lines 234-295). *)
Definition create_figure (a : PasswordCrackingApp) : result figure :=
  let x_axis_title := if String.eqb (app_x_axis_type a) "time"
                      then "Time (seconds)"%string else "Number of hashes tested"%string in
  let y_axis_title := if String.eqb (app_y_axis_type a) "count"
                      then "Cracked passwords (count)"%string else "Cracked passwords (%)"%string in
  ts <- figure_traces (no_potfile_highlight a) 0 (parsers a) ;;
  Ok (mk_figure ts x_axis_title y_axis_title).

(** [update_graph_and_settings] (lines 218-232): [triggered] is the
    [prop_id] of [ctx.triggered[0]], if any. The app's attributes are
    assigned before the figure is built, so they are kept when building it
    raises; the result is the app afterwards and what the callback returns
    or raises. *)
Definition update_graph_and_settings (a : PasswordCrackingApp) (triggered : option string) (refresh : pyval)
    (x_axis y_axis : string) (potfile_highlight : list string)
  : PasswordCrackingApp * result (pyval * figure) :=
  let pressed := match triggered with
                 | Some pid => String.eqb pid "update-button.n_clicks"
                 | None => false
                 end in
  let settings :=
    if pressed then
      ui <- py_mul refresh 1000 ;;
      Ok (update_parsers
            (mk_app (hashcat_files a) ui x_axis y_axis (app_status_timer a)
                    (negb (existsb (String.eqb "highlight") potfile_highlight)) (parsers a)))
    else Ok a in
  match settings with
  | Error e => (a, Error e)
  | Ok a' => (a', fig <- create_figure a' ;; Ok (update_interval a', fig))
  end.

(** The first of [files] that does not exist. *)
Fixpoint first_missing (files : list string) : option string :=
  match files with
  | [] => None
  | f :: t => match fs f with None => Some f | Some _ => first_missing t end
  end.

(** [main] after argument parsing: [files] is [args.files]. *)
Definition main_run (files : list string) : main_outcome :=
  match first_missing files with
  | Some f => MainExit 1 (String.append "Error: File '" (String.append f "' not found!"))
  | None => MainRun (init_app (FilesList files))
  end.

End Figure.

(** Statements about the dashboard. *)

Definition label_ok (k : key) : bool :=
  match snd k with PNone | PStr _ => true | _ => false end.

(** Each x curve has as many points as the y curve of the same index. *)
Definition pair_lengths (cx : list (list Z)) (cy : list (list yval)) : Prop :=
  Forall2 (fun a b => List.length a = List.length b) cx cy.

Fixpoint nondecreasing (l : list Z) : bool :=
  match l with
  | a :: ((b :: _) as t) => (a <=? b) && nondecreasing t
  | _ => true
  end.

(** [progress[0]] of a record, with [progress] defaulting to [[0]]. *)
Definition record_progress (d : pyval) : option Z :=
  match d with
  | PDict dd => match dict_get dd "progress" with
                | None => Some 0
                | Some (PList (v :: _)) => py_num v
                | Some _ => None
                end
  | _ => None
  end.

Fixpoint progress_total (ds : list pyval) : option Z :=
  match ds with
  | [] => Some 0
  | d :: t => match record_progress d, progress_total t with
              | Some a, Some b => Some (a + b)
              | _, _ => None
              end
  end.

(** A grown output: the labels are extended, every curve but the last is
    kept, and the last one is extended. *)
Definition curves_grow {A : Type} (old new : list (list A)) : Prop :=
  old = [] \/ exists c0 c e rest, old = c0 ++ [c] /\ new = c0 ++ [c ++ e] ++ rest.

Definition output_grows (o o' : output) : Prop :=
  let '(cx, cy, lb) := o in
  let '(cx', cy', lb') := o' in
  curves_grow cx cx' /\ curves_grow cy cy' /\ exists lnew, lb' = lb ++ lnew.

(** Sample inputs for the dashboard. *)

Definition line_mod_num : string :=
  (String.concat "" ["{"; jstr "progress"; ": [10], "; jstr "recovered_hashes"; ": [2, 100], ";
                     jstr "guess"; ": {"; jstr "guess_base"; ": "; jstr "dict1"; ", ";
                     jstr "guess_mod"; ": 3}}"])%string.

Definition rec_mod_num : pyval :=
  PDict [fld "progress" (PList [PInt 10]); fld "recovered_hashes" (PList [PInt 2; PInt 100]);
         fld "guess" (PDict [fld "guess_base" (PStr "dict1"); fld "guess_mod" (PInt 3)])].

Definition dash_loads (s : string) : json_result :=
  if String.eqb s line_mod_num then JValue rec_mod_num else sample_loads s.

Definition two_files (name : string) : option (list string) :=
  if String.eqb name "a.json" then Some sample_lines
  else if String.eqb name "b.json" then Some [String.append line_mod_num nl]
  else None.

Definition stem_of (s : string) : string := s.

Definition sample_app : PasswordCrackingApp := init_app (FilesList ["a.json"; "a.json"]%string).

(** ** Properties of Python equality on decoded values *)

Section PyvalInd.
Variable P : pyval -> Prop.
Hypothesis HNone : P PNone.
Hypothesis HBool : forall b, P (PBool b).
Hypothesis HInt : forall z, P (PInt z).
Hypothesis HStr : forall s, P (PStr s).
Hypothesis HList : forall l, Forall P l -> P (PList l).
Hypothesis HDict : forall d, Forall (fun kv => P (snd kv)) d -> P (PDict d).

Fixpoint pyval_ind' (v : pyval) : P v :=
  match v with
  | PNone => HNone
  | PBool b => HBool b
  | PInt z => HInt z
  | PStr s => HStr s
  | PList l =>
      HList l ((fix go (l : list pyval) : Forall P l :=
                  match l with
                  | [] => Forall_nil P
                  | x :: t => Forall_cons x (pyval_ind' x) (go t)
                  end) l)
  | PDict d =>
      HDict d ((fix go (d : list (string * pyval)) : Forall (fun kv => P (snd kv)) d :=
                  match d with
                  | [] => Forall_nil _
                  | (k, x) :: t => @Forall_cons _ (fun kv => P (snd kv)) (k, x) t
                                     (pyval_ind' x) (go t)
                  end) d)
  end.
End PyvalInd.

Lemma dict_get_In d k v : dict_get d k = Some v -> In (k, v) d.
Proof.
  induction d as [|[k' v'] t IH]; simpl; [discriminate|].
  destruct (String.eqb_spec k' k); [intros [= <-]; subst; auto | auto].
Qed.

Lemma dict_get_keys d k : In k (map fst d) <-> exists v, dict_get d k = Some v.
Proof.
  induction d as [|[k' v'] t IH]; simpl.
  - split; [tauto | intros [v H]; discriminate].
  - destruct (String.eqb_spec k' k) as [->|Hne]; split; eauto.
    + intros [H|H]; [congruence | apply IH, H].
    + intros H; right; apply IH, H.
Qed.

Lemma existsb_eqb_In k l : existsb (String.eqb k) l = true <-> In k l.
Proof.
  rewrite existsb_exists; split.
  - intros [x [Hin Hx]]; apply String.eqb_eq in Hx; subst; auto.
  - intros H; exists k; split; auto; apply String.eqb_refl.
Qed.

Lemma dict_items_eqb_spec eq d2 d : forall seen,
  dict_items_eqb eq d2 seen d = true <->
  (forall k v, ~ In k seen -> dict_get d k = Some v ->
               exists w, dict_get d2 k = Some w /\ eq v w = true).
Proof.
  induction d as [|[k0 v0] t IH]; intros seen; simpl.
  - split; [intros _ k v _ H; discriminate | auto].
  - rewrite andb_true_iff, IH; split.
    + intros [H1 H2] k v Hk Hget.
      destruct (String.eqb_spec k0 k) as [->|Hne].
      * injection Hget as <-.
        destruct (existsb (String.eqb k) seen) eqn:E.
        { apply existsb_eqb_In in E; contradiction. }
        destruct (dict_get d2 k) as [w|]; [eauto | discriminate].
      * apply H2; [simpl; intros [H|H]; [congruence|contradiction] | exact Hget].
    + intros H; split.
      * destruct (existsb (String.eqb k0) seen) eqn:E; [reflexivity|].
        destruct (H k0 v0) as [w [Hw Heq]].
        { intros Hin; apply existsb_eqb_In in Hin; congruence. }
        { rewrite String.eqb_refl; reflexivity. }
        rewrite Hw; exact Heq.
      * intros k v Hk Hget; apply H.
        { intros Hin; apply Hk; right; exact Hin. }
        destruct (String.eqb_spec k0 k) as [->|Hne]; [|exact Hget].
        exfalso; apply Hk; left; reflexivity.
Qed.

(** Python equality of two dicts, stated with lookups. *)
Lemma py_eq_dict d1 d2 :
  py_eq (PDict d1) (PDict d2) = true <->
  (forall k v, dict_get d1 k = Some v -> exists w, dict_get d2 k = Some w /\ py_eq v w = true) /\
  (forall k, In k (map fst d2) -> In k (map fst d1)).
Proof.
  simpl; rewrite andb_true_iff, dict_items_eqb_spec, forallb_forall.
  split; intros [H1 H2]; split.
  - intros k v; apply H1; simpl; tauto.
  - intros k Hk. apply in_map_iff in Hk as [[k' v'] [<- Hin]].
    apply existsb_eqb_In, (H2 (k', v') Hin).
  - intros k v _; apply H1.
  - intros [k v] Hin; apply existsb_eqb_In, H2, in_map_iff; exists (k, v); auto.
Qed.

Lemma list_eqb_spec eq l1 l2 :
  list_eqb eq l1 l2 = true <-> Forall2 (fun a b => eq a b = true) l1 l2.
Proof.
  revert l2; induction l1 as [|x xs IH]; intros [|y ys]; simpl;
    split; intros H; try discriminate; auto.
  - inversion H.
  - inversion H.
  - apply andb_true_iff in H as [Hxy Hr]; constructor; auto; apply IH, Hr.
  - inversion H as [|? ? ? ? Hxy Hr]; subst.
    apply andb_true_iff; split; auto; apply IH; auto.
Qed.

Lemma py_eq_refl v : py_eq v v = true.
Proof.
  induction v using pyval_ind'; simpl; auto.
  - destruct b; reflexivity.
  - apply Z.eqb_refl.
  - apply String.eqb_refl.
  - apply list_eqb_spec; induction H; constructor; auto.
  - apply py_eq_dict; split; [|auto].
    intros k v Hget; exists v; split; [exact Hget|].
    apply dict_get_In in Hget.
    rewrite Forall_forall in H; exact (H (k, v) Hget).
Qed.

Ltac py_scalar :=
  repeat match goal with
         | b : bool |- _ => destruct b
         | H : (_ =? _)%Z = true |- _ => apply Z.eqb_eq in H
         | H : String.eqb _ _ = true |- _ => apply String.eqb_eq in H
         end;
  subst; simpl in *; try discriminate;
  try apply Z.eqb_eq; try apply String.eqb_eq; try lia; auto.

Lemma py_eq_sym a : forall b, py_eq a b = true -> py_eq b a = true.
Proof.
  induction a as [|x|z|s|l IHl|d IHd] using pyval_ind'; intros b Hab.
  1-4: destruct b; simpl in *; py_scalar.
  - destruct b as [| | | |l2|d2]; simpl in Hab; try discriminate; simpl.
    apply list_eqb_spec in Hab; apply list_eqb_spec.
    revert l2 Hab; induction IHl as [|x xs Hx Hxs IH]; intros l2 Hab;
      inversion Hab as [|? y ? ys Hxy Hr]; subst; constructor; auto.
  - destruct b as [| | | |l2|d2]; try (simpl in Hab; discriminate).
    apply py_eq_dict in Hab as [H1 H2]; apply py_eq_dict; split.
    + intros k w Hw.
      assert (Hk : In k (map fst d2)) by (apply dict_get_keys; eauto).
      apply H2, dict_get_keys in Hk as [v Hv].
      destruct (H1 k v Hv) as [w' [Hw' Hvw]].
      rewrite Hw in Hw'; injection Hw' as <-.
      exists v; split; [exact Hv|].
      rewrite Forall_forall in IHd; apply (IHd (k, v) (dict_get_In _ _ _ Hv)); exact Hvw.
    + intros k Hk; apply dict_get_keys in Hk as [v Hv].
      destruct (H1 k v Hv) as [w [Hw _]]; apply dict_get_keys; eauto.
Qed.

Lemma py_eq_trans a : forall b c, py_eq a b = true -> py_eq b c = true -> py_eq a c = true.
Proof.
  induction a as [|x|z|s|l IHl|d IHd] using pyval_ind'; intros b c Hab Hbc.
  1-4: destruct b, c; simpl in *; py_scalar.
  - destruct b as [| | | |l2|d2]; simpl in Hab; try discriminate.
    destruct c as [| | | |l3|d3]; simpl in Hbc; try discriminate; simpl.
    apply list_eqb_spec in Hab, Hbc; apply list_eqb_spec.
    revert l2 l3 Hab Hbc; induction IHl as [|x xs Hx Hxs IH]; intros l2 l3 Hab Hbc;
      inversion Hab as [|? y ? ys Hxy Hr]; subst;
      inversion Hbc as [|? z ? zs Hyz Hr']; subst; constructor; eauto.
  - destruct b as [| | | |l2|d2]; try (simpl in Hab; discriminate).
    destruct c as [| | | |l3|d3]; try (simpl in Hbc; discriminate).
    apply py_eq_dict in Hab as [H1 H2]; apply py_eq_dict in Hbc as [H3 H4].
    apply py_eq_dict; split; [|auto].
    intros k v Hv.
    destruct (H1 k v Hv) as [w [Hw Hvw]].
    destruct (H3 k w Hw) as [u [Hu Hwu]].
    exists u; split; [exact Hu|].
    rewrite Forall_forall in IHd; exact (IHd (k, v) (dict_get_In _ _ _ Hv) w u Hvw Hwu).
Qed.

Lemma key_eqb_refl k : key_eqb k k = true.
Proof. unfold key_eqb; rewrite String.eqb_refl, py_eq_refl; reflexivity. Qed.

Lemma key_eqb_sym k1 k2 : key_eqb k1 k2 = key_eqb k2 k1.
Proof.
  unfold key_eqb; rewrite String.eqb_sym.
  destruct (py_eq (snd k1) (snd k2)) eqn:E1, (py_eq (snd k2) (snd k1)) eqn:E2; auto;
    [apply py_eq_sym in E1 | apply py_eq_sym in E2]; congruence.
Qed.

Lemma key_eqb_trans k1 k2 k3 :
  key_eqb k1 k2 = true -> key_eqb k2 k3 = true -> key_eqb k1 k3 = true.
Proof.
  unfold key_eqb; rewrite !andb_true_iff, !String.eqb_eq; intros [-> H1] [-> H2].
  split; [reflexivity | eapply py_eq_trans; eauto].
Qed.

(** ** The segmenter's state *)

Lemma append_last_app {A : Type} (l0 : list (list A)) c a :
  append_last (l0 ++ [c]) a = Ok (l0 ++ [c ++ [a]]).
Proof.
  induction l0 as [|c0 t IH]; [reflexivity|].
  simpl. destruct t as [|c1 t'].
  - reflexivity.
  - change (append_last (c0 :: ((c1 :: t') ++ [c])) a
            = Ok (c0 :: ((c1 :: t') ++ [c ++ [a]]))).
    simpl in IH |- *. rewrite IH. reflexivity.
Qed.

Lemma last_point_app {A : Type} (l0 : list (list A)) c z :
  last_point (l0 ++ [c ++ [z]]) = Ok z.
Proof.
  unfold last_point. rewrite List.last_last.
  destruct (c ++ [z]) eqn:E; [destruct c; discriminate|].
  rewrite <- E, rev_app_distr. reflexivity.
Qed.

Lemma last_opt_app {A : Type} (c : list A) z : last_opt (c ++ [z]) = Some z.
Proof. unfold last_opt; rewrite rev_app_distr; reflexivity. Qed.

Lemma hd_error_app {A : Type} (c : list A) a : c <> [] -> hd_error (c ++ [a]) = hd_error c.
Proof. destruct c; [congruence | reflexivity]. Qed.

Lemma stitched_snoc {A : Type} (l0 : list (list A)) c :
  stitched (l0 ++ [c]) <->
  stitched l0 /\ (l0 = [] \/ last_opt (last l0 []) = hd_error c).
Proof.
  induction l0 as [|c0 t IH]; simpl; [tauto|].
  destruct t as [|c1 t']; simpl.
  - split; [tauto | intros [_ [H|H]]; [discriminate | auto]].
  - simpl in IH. rewrite IH. split.
    + intros [H1 [H2 [H3|H3]]]; [discriminate | auto].
    + intros [[H1 H2] [H3|H3]]; [discriminate | auto].
Qed.

Lemma list_snoc {A : Type} (l : list A) : l <> [] -> exists l0 a, l = l0 ++ [a].
Proof.
  intros H. destruct (exists_last H) as [l0 [a ->]]. eauto.
Qed.

Lemma Forall_snoc {A : Type} (P : A -> Prop) l a :
  Forall P (l ++ [a]) <-> Forall P l /\ P a.
Proof.
  rewrite Forall_app; split; intros [H1 H2]; split; auto.
  - inversion H2; auto.
Qed.

Lemma curve_two {A : Type} (c : list A) : (2 <= List.length c)%nat -> exists c0 z, c = c0 ++ [z].
Proof.
  intros H; apply list_snoc; intros ->; simpl in H; lia.
Qed.

Lemma init_state_inv : curves_inv init_state.
Proof. repeat split; simpl; auto; discriminate. Qed.

(** The three ways [update_curves] can succeed. *)
Lemma update_curves_cases st x y k st' :
  update_curves st x y k = Ok st' ->
  (current_identifier st = None /\
   st' = mk_state (guesses st) (Some k) (elapsed_seconds st)
                  (curves_x st ++ [[0; x]]) (curves_y st ++ [[YObj (PInt 0); y]])
                  (label_list st ++ [k])) \/
  (exists c lx ly, current_identifier st = Some c /\ key_eqb k c = false /\
     last_point (curves_x st) = Ok lx /\ last_point (curves_y st) = Ok ly /\
     st' = mk_state (guesses st) (Some k) (elapsed_seconds st)
                    (curves_x st ++ [[lx; x]]) (curves_y st ++ [[ly; y]])
                    (label_list st ++ [k])) \/
  (exists c cx cy, current_identifier st = Some c /\ key_eqb k c = true /\
     append_last (curves_x st) x = Ok cx /\ append_last (curves_y st) y = Ok cy /\
     st' = mk_state (guesses st) (current_identifier st) (elapsed_seconds st)
                    cx cy (label_list st)).
Proof.
  unfold update_curves, same_identifier.
  destruct (current_identifier st) as [c|] eqn:Ec; simpl.
  - destruct (key_eqb k c) eqn:Ek; simpl.
    + destruct (append_last (curves_x st) x) as [cx|] eqn:E1; simpl; [|discriminate].
      destruct (append_last (curves_y st) y) as [cy|] eqn:E2; simpl; [|discriminate].
      intros [= <-]. right; right. exists c, cx, cy. auto.
    + destruct (last_point (curves_x st)) as [lx|] eqn:E1; simpl; [|discriminate].
      destruct (last_point (curves_y st)) as [ly|] eqn:E2; simpl; [|discriminate].
      intros [= <-]. right; left. exists c, lx, ly. auto.
  - intros [= <-]. left. auto.
Qed.

Lemma update_curves_inv st x y k st' :
  curves_inv st -> update_curves st x y k = Ok st' -> curves_inv st'.
Proof.
  intros (Hl1 & Hl2 & Hcur & Hfx & Hfy & Hsx & Hsy) Hup.
  destruct (update_curves_cases _ _ _ _ _ Hup)
    as [[Hc ->] | [(c & lx & ly & Hc & Hk & Hlx & Hly & ->) | (c & cx & cy & Hc & Hk & Hax & Hay & ->)]];
    unfold curves_inv; simpl.
  - assert (Hx : curves_x st = []) by (apply Hcur; exact Hc).
    assert (Hy : curves_y st = []) by (destruct (curves_y st); simpl in *; [reflexivity | rewrite Hx in Hl1; discriminate]).
    rewrite Hx, Hy in *. simpl in *.
    rewrite length_app; simpl.
    repeat split; try discriminate; try lia; repeat constructor; simpl; lia.
  - assert (Hx : curves_x st <> []) by (intros E; apply Hcur in E; congruence).
    assert (Hy : curves_y st <> []) by (intros E; rewrite E in Hl1; destruct (curves_x st); simpl in *; congruence).
    destruct (list_snoc _ Hx) as (lx0 & cxl & Ex).
    destruct (list_snoc _ Hy) as (ly0 & cyl & Ey).
    assert (Hcxl : (2 <= List.length cxl)%nat) by (rewrite Ex in Hfx; apply Forall_snoc in Hfx; tauto).
    assert (Hcyl : (2 <= List.length cyl)%nat) by (rewrite Ey in Hfy; apply Forall_snoc in Hfy; tauto).
    destruct (curve_two _ Hcxl) as (cx0 & zx & Ecx).
    destruct (curve_two _ Hcyl) as (cy0 & zy & Ecy).
    rewrite Ex, Ecx, last_point_app in Hlx. injection Hlx as <-.
    rewrite Ey, Ecy, last_point_app in Hly. injection Hly as <-.
    rewrite !length_app; simpl.
    split; [lia|]. split; [lia|].
    split; [split; [discriminate | intros E; apply app_eq_nil in E; destruct E; discriminate]|].
    split; [apply Forall_app; split; [exact Hfx | repeat constructor; simpl; lia]|].
    split; [apply Forall_app; split; [exact Hfy | repeat constructor; simpl; lia]|].
    split.
    + apply stitched_snoc; split; [exact Hsx|]. right.
      rewrite Ex, Ecx, List.last_last, last_opt_app. reflexivity.
    + apply stitched_snoc; split; [exact Hsy|]. right.
      rewrite Ey, Ecy, List.last_last, last_opt_app. reflexivity.
  - assert (Hx : curves_x st <> []) by (intros E; apply Hcur in E; congruence).
    assert (Hy : curves_y st <> []) by (intros E; rewrite E in Hl1; destruct (curves_x st); simpl in *; congruence).
    destruct (list_snoc _ Hx) as (lx0 & cxl & Ex).
    destruct (list_snoc _ Hy) as (ly0 & cyl & Ey).
    rewrite Ex, append_last_app in Hax. injection Hax as <-.
    rewrite Ey, append_last_app in Hay. injection Hay as <-.
    rewrite Ex in Hl1, Hfx, Hsx. rewrite Ey in Hl1, Hl2, Hfy, Hsy.
    apply Forall_snoc in Hfx as [Hfx0 Hfxl]. apply Forall_snoc in Hfy as [Hfy0 Hfyl].
    apply stitched_snoc in Hsx as [Hsx0 Hsxl]. apply stitched_snoc in Hsy as [Hsy0 Hsyl].
    rewrite !length_app in *. simpl in *.
    split; [lia|]. split; [lia|].
    split; [split; [rewrite Hc; discriminate | intros E; apply app_eq_nil in E; destruct E; discriminate]|].
    split; [apply Forall_snoc; split; auto; rewrite length_app; simpl; lia|].
    split; [apply Forall_snoc; split; auto; rewrite length_app; simpl; lia|].
    split.
    + apply stitched_snoc; split; auto. destruct Hsxl as [Hn|Hsxl]; [left; exact Hn | right].
      rewrite hd_error_app; [exact Hsxl | intros ->; simpl in Hfxl; lia].
    + apply stitched_snoc; split; auto. destruct Hsyl as [Hn|Hsyl]; [left; exact Hn | right].
      rewrite hd_error_app; [exact Hsyl | intros ->; simpl in Hfyl; lia].
Qed.

Lemma append_last_length {A : Type} (l : list (list A)) a l' :
  append_last l a = Ok l' -> List.length l' = List.length l.
Proof.
  revert l'; induction l as [|c t IH]; intros l' H; simpl in H; [discriminate|].
  destruct t as [|c1 t'].
  - injection H as <-; reflexivity.
  - destruct (append_last (c1 :: t') a) as [r|] eqn:E; simpl in H; [|discriminate].
    injection H as <-. simpl. rewrite (IH r eq_refl). reflexivity.
Qed.

Lemma update_curves_one_or_none st x y k st' :
  update_curves st x y k = Ok st' -> one_or_none st st'.
Proof.
  intros Hup; unfold one_or_none.
  destruct (update_curves_cases _ _ _ _ _ Hup)
    as [[Hc ->] | [(c & lx & ly & Hc & Hk & Hlx & Hly & ->) | (c & cx & cy & Hc & Hk & Hax & Hay & ->)]];
    simpl; rewrite ?length_app; simpl.
  - right; lia.
  - right; lia.
  - left; rewrite (append_last_length _ _ _ Hax), (append_last_length _ _ _ Hay); auto.
Qed.

(** [process_record] is [axis_values], [attack_key], [update_curves] and the tick. *)
Lemma process_record_cases p st d st' :
  process_record p st d = Ok st' ->
  exists g x y k st'',
    axis_values p st d = Ok (g, x, y) /\ attack_key d = Ok k /\
    update_curves (mk_state g (current_identifier st) (elapsed_seconds st)
                            (curves_x st) (curves_y st) (label_list st)) x y k = Ok st'' /\
    st' = mk_state (guesses st'') (current_identifier st'') (elapsed_seconds st'' + status_timer p)
                   (curves_x st'') (curves_y st'') (label_list st'').
Proof.
  unfold process_record.
  destruct (axis_values p st d) as [[[g x] y]|]; simpl; [|discriminate].
  destruct (attack_key d) as [k|]; simpl; [|discriminate].
  destruct (update_curves _ x y k) as [st''|] eqn:E; simpl; [|discriminate].
  intros [= <-]. exists g, x, y, k, st''. auto.
Qed.

Lemma process_record_inv p st d st' :
  curves_inv st -> process_record p st d = Ok st' -> curves_inv st'.
Proof.
  intros Hinv H.
  destruct (process_record_cases _ _ _ _ H) as (g & x & y & k & st'' & _ & _ & Hup & ->).
  apply update_curves_inv in Hup; [exact Hup | exact Hinv].
Qed.

Lemma process_record_one_or_none p st d st' :
  process_record p st d = Ok st' -> one_or_none st st'.
Proof.
  intros H.
  destruct (process_record_cases _ _ _ _ H) as (g & x & y & k & st'' & _ & _ & Hup & ->).
  apply update_curves_one_or_none in Hup. exact Hup.
Qed.

Lemma process_records_inv p ds : forall st st',
  curves_inv st -> process_records p st ds = Ok st' -> curves_inv st'.
Proof.
  induction ds as [|d t IH]; intros st st' Hinv H; simpl in H.
  - injection H as <-; exact Hinv.
  - destruct (process_record p st d) as [s1|] eqn:E; simpl in H; [|discriminate].
    apply (IH s1); [apply (process_record_inv p st d); auto | exact H].
Qed.

(** ** Facts about the double arithmetic of [SpecFloat] *)

Lemma digits2_pos_bounds p :
  2 ^ (Zpos (digits2_pos p) - 1) <= Zpos p < 2 ^ Zpos (digits2_pos p).
Proof.
  induction p as [p IH|p IH|]; cbn [digits2_pos]; [| |cbn; lia].
  - rewrite Pos2Z.inj_succ, (Pos2Z.inj_xI p).
    set (d := Zpos (digits2_pos p)) in *.
    assert (Hd : 2 ^ Z.succ d = 2 * 2 ^ d) by (apply Z.pow_succ_r; lia).
    assert (Hd' : 2 ^ d = 2 * 2 ^ (d - 1)) by (rewrite <- Z.pow_succ_r by lia; f_equal; lia).
    replace (Z.succ d - 1) with d by lia. lia.
  - rewrite Pos2Z.inj_succ, (Pos2Z.inj_xO p).
    set (d := Zpos (digits2_pos p)) in *.
    assert (Hd : 2 ^ Z.succ d = 2 * 2 ^ d) by (apply Z.pow_succ_r; lia).
    assert (Hd' : 2 ^ d = 2 * 2 ^ (d - 1)) by (rewrite <- Z.pow_succ_r by lia; f_equal; lia).
    replace (Z.succ d - 1) with d by lia. lia.
Qed.

Lemma Zdigits2_bounds m : 0 < m -> 2 ^ (Zdigits2 m - 1) <= m < 2 ^ Zdigits2 m.
Proof. destruct m as [|p|p]; intros H; [lia| |lia]. apply digits2_pos_bounds. Qed.

Lemma Zdigits2_pos m : 0 < m -> 1 <= Zdigits2 m.
Proof. destruct m as [|p|p]; intros H; [lia| |lia]. cbn. lia. Qed.

Lemma Zdigits2_le m k : 0 <= m < 2 ^ k -> 0 <= k -> Zdigits2 m <= k.
Proof.
  intros Hm Hk. destruct (Z.eq_dec m 0) as [->|Hm0]; [cbn; lia|].
  pose proof (Zdigits2_bounds m ltac:(lia)) as [Hlo _].
  pose proof (Zdigits2_pos m ltac:(lia)).
  destruct (Z.le_gt_cases (Zdigits2 m) k) as [|Hgt]; [assumption|].
  assert (2 ^ k <= 2 ^ (Zdigits2 m - 1)) by (apply Z.pow_le_mono_r; lia). lia.
Qed.

Lemma Zdigits2_unique m k : 1 <= k -> 2 ^ (k - 1) <= m < 2 ^ k -> Zdigits2 m = k.
Proof.
  intros Hk Hm.
  assert (H0 : 0 < 2 ^ (k - 1)) by (apply Z.pow_pos_nonneg; lia).
  pose proof (Zdigits2_le m k ltac:(lia) ltac:(lia)).
  pose proof (Zdigits2_bounds m ltac:(lia)) as [_ Hhi].
  destruct (Z.le_gt_cases k (Zdigits2 m)) as [|Hlt]; [lia|].
  assert (2 ^ Zdigits2 m <= 2 ^ (k - 1)) by (apply Z.pow_le_mono_r; lia). lia.
Qed.

Lemma iter_pos_nat {A : Type} (f : A -> A) p : forall x,
  iter_pos f p x = Nat.iter (Pos.to_nat p) f x.
Proof.
  induction p as [p IH|p IH|]; intros x; cbn [iter_pos].
  - rewrite IH, IH, Pos2Nat.inj_xI, <- Nat.iter_add.
    replace (Pos.to_nat p + Pos.to_nat p)%nat with (2 * Pos.to_nat p)%nat by lia.
    rewrite (Nat.iter_succ_r (2 * Pos.to_nat p)). reflexivity.
  - rewrite IH, IH, Pos2Nat.inj_xO, <- Nat.iter_add. f_equal. lia.
  - reflexivity.
Qed.



Lemma iter_shr_exact n : forall m, 0 <= m ->
  Nat.iter n shr_1 (Build_shr_record (m * 2 ^ Z.of_nat n) false false) = Build_shr_record m false false.
Proof.
  induction n as [|n IH]; intros m Hm.
  - change (Z.of_nat 0) with 0. rewrite Z.pow_0_r, Z.mul_1_r. reflexivity.
  - replace (m * 2 ^ Z.of_nat (S n)) with ((2 * m) * 2 ^ Z.of_nat n)
      by (rewrite Nat2Z.inj_succ, Z.pow_succ_r by lia; ring).
    change (Nat.iter (S n) shr_1 ?x) with (shr_1 (Nat.iter n shr_1 x)).
    rewrite (IH (2 * m)) by lia.
    destruct m as [|q|q]; [reflexivity|reflexivity|lia].
Qed.

Lemma shr_exact w n e : 0 <= w -> 0 <= n ->
  shr (Build_shr_record (w * 2 ^ n) false false) e n = (Build_shr_record w false false, e + n).
Proof.
  intros Hw Hn. destruct n as [|p|p].
  - cbn. rewrite Z.mul_1_r, Z.add_0_r. reflexivity.
  - cbn [shr]. rewrite iter_pos_nat.
    replace (w * 2 ^ Zpos p) with (w * 2 ^ Z.of_nat (Pos.to_nat p)) by (rewrite positive_nat_Z; reflexivity).
    rewrite iter_shr_exact by exact Hw. reflexivity.
  - lia.
Qed.




Lemma fexp_53 x : fexp 53 1024 x = Z.max (x - 53) (-1074).
Proof. reflexivity. Qed.


(** Rounding [v * 2 ^ j * 2 ^ (-j)] for an integer [v] below [2 ^ 53] is exact. *)
Lemma round_int_exact sx v j : 0 < v < 2 ^ 53 -> 53 - Zdigits2 v <= j ->
  binary_round_aux 53 1024 sx (v * 2 ^ j) (- j) loc_Exact =
  S754_finite sx (Z.to_pos (v * 2 ^ (53 - Zdigits2 v))) (Zdigits2 v - 53).
Proof.
  intros Hv Hj. pose proof (Zdigits2_pos v ltac:(lia)) as Hd1.
  pose proof (Zdigits2_le v 53 ltac:(lia) ltac:(lia)) as Hd53.
  pose proof (Zdigits2_bounds v ltac:(lia)) as [Hlo Hhi].
  set (dv := Zdigits2 v) in *.
  assert (Hdj : Zdigits2 (v * 2 ^ j) = dv + j).
  { apply Zdigits2_unique; [lia|]. 
    replace (dv + j - 1) with ((dv - 1) + j) by lia.
    rewrite !Z.pow_add_r by lia.
    assert (0 < 2 ^ j) by (apply Z.pow_pos_nonneg; lia). nia. }
  unfold binary_round_aux, shr_fexp. cbn [shr_record_of_loc loc_of_shr_record].
  rewrite Hdj, fexp_53.
  replace (Z.max (dv + j + - j - 53) (-1074) - - j) with (j - (53 - dv)) by lia.
  replace (v * 2 ^ j) with ((v * 2 ^ (53 - dv)) * 2 ^ (j - (53 - dv)))
    by (rewrite <- Z.mul_assoc, <- Z.pow_add_r by lia; f_equal; f_equal; lia).
  assert (Hw : 0 < v * 2 ^ (53 - dv)) by (assert (0 < 2 ^ (53 - dv)) by (apply Z.pow_pos_nonneg; lia); nia).
  rewrite shr_exact by lia. cbn [shr_m loc_of_shr_record round_nearest_even].
  assert (Hdw : Zdigits2 (v * 2 ^ (53 - dv)) = 53).
  { apply Zdigits2_unique; [lia|].
    assert (E1 : 2 ^ (53 - 1) = 2 ^ (dv - 1) * 2 ^ (53 - dv))
      by (rewrite <- Z.pow_add_r by lia; f_equal; lia).
    assert (E2 : 2 ^ 53 = 2 ^ dv * 2 ^ (53 - dv))
      by (rewrite <- Z.pow_add_r by lia; f_equal; lia).
    rewrite E1, E2.
    assert (0 < 2 ^ (53 - dv)) by (apply Z.pow_pos_nonneg; lia). nia. }
  rewrite Hdw, fexp_53.
  replace (Z.max (53 + (- j + (j - (53 - dv))) - 53) (-1074) - (- j + (j - (53 - dv)))) with 0 by lia.
  replace (v * 2 ^ (53 - dv)) with (v * 2 ^ (53 - dv) * 2 ^ 0) at 1 by (rewrite Z.pow_0_r; lia).
  rewrite shr_exact by lia. cbn [shr_m].
  replace (- j + (j - (53 - dv)) + 0) with (dv - 53) by lia.
  destruct (v * 2 ^ (53 - dv)) as [|p|p] eqn:Ew; [lia| |lia].
  replace (dv - 53 <=? 1024 - 53) with true by (symmetry; apply Z.leb_le; lia). reflexivity.
Qed.

Lemma Zdigits2_ge v k : 1 <= k -> 2 ^ (k - 1) <= v -> k <= Zdigits2 v.
Proof.
  intros Hk Hv. assert (0 < 2 ^ (k - 1)) by (apply Z.pow_pos_nonneg; lia).
  pose proof (Zdigits2_bounds v ltac:(lia)) as [_ Hhi].
  destruct (Z.le_gt_cases k (Zdigits2 v)) as [|Hlt]; [assumption|].
  pose proof (Zdigits2_pos v ltac:(lia)).
  assert (2 ^ Zdigits2 v <= 2 ^ (k - 1)) by (apply Z.pow_le_mono_r; lia). lia.
Qed.

Lemma div_core_spec m1 m2 : 0 < m2 ->
  let s := - Z.min (fexp 53 1024 (Zdigits2 m1 - Zdigits2 m2)) 0 in
  0 <= s /\
  SFdiv_core_binary 53 1024 m1 0 m2 0 = ((m1 * 2 ^ s) / m2, - s, new_location m2 ((m1 * 2 ^ s) mod m2)).
Proof.
  intros Hm2 s. split; [unfold s; lia|].
  unfold SFdiv_core_binary.
  replace (Zdigits2 m1 + 0 - (Zdigits2 m2 + 0)) with (Zdigits2 m1 - Zdigits2 m2) by lia.
  replace (0 - 0) with 0 by reflexivity.
  replace (0 - Z.min (fexp 53 1024 (Zdigits2 m1 - Zdigits2 m2)) 0) with s by (unfold s; lia).
  replace (Z.min (fexp 53 1024 (Zdigits2 m1 - Zdigits2 m2)) 0) with (- s) by (unfold s; lia).
  assert (Hs : 0 <= s) by (unfold s; lia). clearbody s.
  assert (Hm' : (match s with Zpos _ => Z.shiftl m1 s | Z0 => m1 | Zneg _ => 0 end) = m1 * 2 ^ s).
  { destruct s as [|p|p]; [lia| |lia]. rewrite Z.shiftl_mul_pow2 by lia. reflexivity. }
  rewrite Hm'.
  destruct (Z.div_eucl (m1 * 2 ^ s) m2) as [q r] eqn:E.
  assert (Hq : q = m1 * 2 ^ s / m2) by (unfold Z.div; rewrite E; reflexivity).
  assert (Hr : r = m1 * 2 ^ s mod m2) by (unfold Z.modulo; rewrite E; reflexivity).
  subst. reflexivity.
Qed.


Lemma hundred_eq : hundred = S754_finite false 7036874417766400 (-46).
Proof. reflexivity. Qed.

(** [c / 1] is exact for [|c| < 2 ^ 53]. *)
Lemma py_int_truediv_exact c : c <> 0 -> Z.abs c < 2 ^ 53 ->
  py_int_truediv c 1 =
  Ok (S754_finite (c <? 0) (Z.to_pos (Z.abs c * 2 ^ (53 - Zdigits2 (Z.abs c)))) (Zdigits2 (Z.abs c) - 53)).
Proof.
  intros Hc0 Hc. unfold py_int_truediv. cbn [Z.eqb].
  replace (c =? 0) with false by (symmetry; apply Z.eqb_neq; exact Hc0).
  destruct (div_core_spec (Z.abs c) (Z.abs 1) ltac:(lia)) as [_ E]. rewrite E.
  pose proof (Zdigits2_pos (Z.abs c) ltac:(lia)) as Hd1.
  pose proof (Zdigits2_le (Z.abs c) 53 ltac:(lia) ltac:(lia)) as Hd53.
  change (Zdigits2 (Z.abs 1)) with 1. rewrite fexp_53.
  replace (- Z.min (Z.max (Zdigits2 (Z.abs c) - 1 - 53) (-1074)) 0) with (54 - Zdigits2 (Z.abs c)) by lia.
  change (Z.abs 1) with 1. rewrite Z.div_1_r, Z.mod_1_r. change (new_location 1 0) with loc_Exact.
  replace (xorb (c <? 0) (1 <? 0)) with (c <? 0) by (destruct (c <? 0); reflexivity).
  rewrite round_int_exact by lia. reflexivity.
Qed.

(** [(c / 1) * 100] is the float [c * 100] when [|c| * 100 < 2 ^ 53]. *)
Lemma percent_exact c : Z.abs c * 100 < 2 ^ 53 ->
  exists f, (q <- py_int_truediv c 1 ;; Ok (SFmul 53 1024 q hundred)) = Ok f /\
            float_denotes f (c * 100) = true.
Proof.
  intros Hc. destruct (Z.eq_dec c 0) as [->|Hc0].
  - eexists. split; reflexivity.
  - rewrite py_int_truediv_exact by lia.
    eexists. split; [reflexivity|].
    rewrite hundred_eq. cbn [SFmul].
    set (d := Zdigits2 (Z.abs c)).
    pose proof (Zdigits2_pos (Z.abs c) ltac:(lia)) as Hd1.
    pose proof (Zdigits2_le (Z.abs c) 53 ltac:(lia) ltac:(lia)) as Hd53.
    pose proof (Zdigits2_bounds (Z.abs c) ltac:(lia)) as [Hlo _].
    fold d in Hd1, Hd53, Hlo.
    assert (Hp : 0 < 2 ^ (53 - d)) by (apply Z.pow_pos_nonneg; lia).
    assert (Hm : Zpos (Z.to_pos (Z.abs c * 2 ^ (53 - d)) * 7036874417766400) =
                 (Z.abs c * 100) * 2 ^ (99 - d)).
    { rewrite Pos2Z.inj_mul, Z2Pos.id by nia.
      replace (99 - d) with ((53 - d) + 46) by lia. rewrite Z.pow_add_r by lia.
      change (Zpos 7036874417766400) with (100 * 2 ^ 46). ring. }
    rewrite Hm. replace (d - 53 + -46) with (- (99 - d)) by lia.
    assert (Hv : d <= Zdigits2 (Z.abs c * 100)) by (apply Zdigits2_ge; lia).
    rewrite round_int_exact by lia.
    set (dv := Zdigits2 (Z.abs c * 100)) in *.
    pose proof (Zdigits2_le (Z.abs c * 100) 53 ltac:(lia) ltac:(lia)) as Hdv. fold dv in Hdv.
    assert (Hq : 0 < 2 ^ (53 - dv)) by (apply Z.pow_pos_nonneg; lia).
    unfold float_denotes. rewrite Z2Pos.id by nia.
    replace (xorb (c <? 0) false) with (c <? 0) by (destruct (c <? 0); reflexivity).
    destruct (Z.leb_spec 0 (dv - 53)) as [H0|H0].
    + replace dv with 53 by lia. rewrite Z.sub_diag, Z.pow_0_r.
      apply Z.eqb_eq. destruct (Z.ltb_spec c 0); cbn [cond_Zopp]; lia.
    + replace (- (dv - 53)) with (53 - dv) by lia.
      apply Z.eqb_eq. destruct (Z.ltb_spec c 0); cbn [cond_Zopp]; nia.
Qed.

(** The loop over lines is the segmenter run on the records the reader
    yields, followed by the exception that stopped the reader, if any. *)
Lemma parse_lines_records json_loads p lines : forall st,
  parse_lines json_loads p st lines =
  let '(ds, err) := read_records json_loads lines in
  st' <- process_records p st ds ;;
  match err with None => Ok st' | Some e => Error e end.
Proof.
  induction lines as [|l t IH]; intros st; simpl; [reflexivity|].
  destruct (utf8_chars l) as [cs|]; [|reflexivity].
  destruct (py_startswith (py_strip cs) "{"); simpl; [|apply IH].
  destruct (json_loads (py_strip cs)) as [d| |e]; simpl; [|apply IH|reflexivity].
  destruct (read_records json_loads t) as [ds err] eqn:Er. cbn [process_records].
  destruct (process_record p st d) as [s1|e]; simpl; [|reflexivity].
  apply IH.
Qed.

Lemma parse_status_file_records json_loads p fs rs :
  source_records json_loads p fs = Ok rs ->
  parse_status_file json_loads p fs =
  (st <- process_records p init_state rs ;; Ok (state_output st)).
Proof.
  unfold parse_status_file, source_records.
  destruct (fs (filename p)) as [lines|]; [|intros [= <-]; reflexivity].
  rewrite parse_lines_records.
  destruct (read_records json_loads lines) as [ds [e|]]; intros H; [discriminate|].
  injection H as <-. destruct (process_records p init_state ds); reflexivity.
Qed.

(** A parse that returns read a record stream, and is the segmenter run on it. *)
Lemma parse_status_file_sources json_loads p fs out :
  parse_status_file json_loads p fs = Ok out ->
  exists rs, source_records json_loads p fs = Ok rs /\
    (st <- process_records p init_state rs ;; Ok (state_output st)) = Ok out.
Proof.
  intros H.
  assert (Hs : exists rs, source_records json_loads p fs = Ok rs).
  { revert H. unfold parse_status_file, source_records.
    destruct (fs (filename p)) as [lines|]; [|eauto].
    rewrite parse_lines_records.
    destruct (read_records json_loads lines) as [ds [e|]]; [|eauto].
    destruct (process_records p init_state ds); simpl; discriminate. }
  destruct Hs as (rs & Hs). exists rs. split; [exact Hs|].
  rewrite <- (parse_status_file_records _ _ _ _ Hs). exact H.
Qed.

Lemma parse_status_file_inv json_loads p fs cx cy lb :
  parse_status_file json_loads p fs = Ok (cx, cy, lb) ->
  exists st, curves_inv st /\ curves_x st = cx /\ curves_y st = cy /\ label_list st = lb.
Proof.
  intros H. destruct (parse_status_file_sources _ _ _ _ H) as (rs & _ & H'). revert H'.
  destruct (process_records p init_state _) as [st|] eqn:E; simpl; [|discriminate].
  intros [= <- <- <-]. exists st; split; auto.
  apply (process_records_inv p _ init_state st init_state_inv E).
Qed.

Lemma stitched_nth {A : Type} (l : list (list A)) : stitched l ->
  forall k, (S k < List.length l)%nat -> last_opt (nth k l []) = hd_error (nth (S k) l []).
Proof.
  induction l as [|c1 t IH]; intros Hs k Hk; simpl in Hk; [lia|].
  destruct t as [|c2 t']; simpl in Hk; [lia|].
  destruct Hs as [H1 H2]. destruct k as [|k]; [exact H1|].
  apply (IH H2 k). simpl; lia.
Qed.

(** ** C5: stitching continuity *)

(** C5: in every output of [parse_status_file], the last point (x and y) of
    curve [k] equals the first point of curve [k + 1]. *)
Theorem parse_status_file_stitched json_loads p fs cx cy lb
  (H : parse_status_file json_loads p fs = Ok (cx, cy, lb)) :
  forall k, (S k < List.length cx)%nat ->
    last_opt (nth k cx []) = hd_error (nth (S k) cx []) /\
    last_opt (nth k cy []) = hd_error (nth (S k) cy []).
Proof.
  destruct (parse_status_file_inv _ _ _ _ _ _ H)
    as (st & (Hl1 & _ & _ & _ & _ & Hsx & Hsy) & <- & <- & <-).
  intros k Hk; split; apply stitched_nth; auto; lia.
Qed.

Lemma parse_status_file_stitched_witness :
  parse_status_file sample_loads default_parser (file_of sample_lines)
    = Ok (sample_cx, sample_cy, sample_lb) /\
  (forall k, (S k < List.length sample_cx)%nat ->
    last_opt (nth k sample_cx []) = hd_error (nth (S k) sample_cx []) /\
    last_opt (nth k sample_cy []) = hd_error (nth (S k) sample_cy [])).
Proof.
  split; [vm_compute; reflexivity|].
  apply (parse_status_file_stitched sample_loads default_parser (file_of sample_lines)
           sample_cx sample_cy sample_lb).
  vm_compute; reflexivity.
Defined.

(** ** C9: the three output sequences have one length *)

(** C9: an output [(curves_x, curves_y, label_list)] of [parse_status_file]
    has [len(curves_x) = len(curves_y) = len(label_list)]; the equality
    holds for the state after every prefix of the record stream, because
    each processed record appends one element to all three sequences or to
    none of them. *)
Theorem parse_status_file_lengths json_loads p fs cx cy lb
  (H : parse_status_file json_loads p fs = Ok (cx, cy, lb)) :
  List.length cx = List.length cy /\ List.length cy = List.length lb /\
  (forall ds st, process_records p init_state ds = Ok st ->
     List.length (curves_x st) = List.length (curves_y st) /\
     List.length (curves_y st) = List.length (label_list st)) /\
  (forall st d st', process_record p st d = Ok st' -> one_or_none st st').
Proof.
  destruct (parse_status_file_inv _ _ _ _ _ _ H) as (st & (Hl1 & Hl2 & _) & <- & <- & <-).
  split; [exact Hl1|]. split; [exact Hl2|]. split.
  - intros ds st' Hp.
    destruct (process_records_inv p ds init_state st' init_state_inv Hp) as (H1 & H2 & _).
    auto.
  - apply process_record_one_or_none.
Qed.

Lemma parse_status_file_lengths_witness :
  parse_status_file sample_loads default_parser (file_of sample_lines)
    = Ok (sample_cx, sample_cy, sample_lb) /\
  List.length sample_cx = List.length sample_cy /\
  List.length sample_cy = List.length sample_lb.
Proof.
  split; [vm_compute; reflexivity|].
  destruct (parse_status_file_lengths sample_loads default_parser (file_of sample_lines)
              sample_cx sample_cy sample_lb) as (H1 & H2 & _).
  - vm_compute; reflexivity.
  - auto.
Defined.

(** ** C10: every curve has at least two points *)

(** C10: every curve of an output of [parse_status_file] has at least two
    points, in [curves_x] and in [curves_y]. *)
Theorem parse_status_file_two_points json_loads p fs cx cy lb
  (H : parse_status_file json_loads p fs = Ok (cx, cy, lb)) :
  Forall (fun c => (2 <= List.length c)%nat) cx /\
  Forall (fun c => (2 <= List.length c)%nat) cy.
Proof.
  destruct (parse_status_file_inv _ _ _ _ _ _ H)
    as (st & (_ & _ & _ & Hfx & Hfy & _) & <- & <- & <-).
  auto.
Qed.

Lemma parse_status_file_two_points_witness :
  parse_status_file sample_loads default_parser (file_of sample_lines)
    = Ok (sample_cx, sample_cy, sample_lb) /\
  Forall (fun c => (2 <= List.length c)%nat) sample_cx /\
  Forall (fun c => (2 <= List.length c)%nat) sample_cy.
Proof.
  split; [vm_compute; reflexivity|].
  apply (parse_status_file_two_points sample_loads default_parser (file_of sample_lines)
           sample_cx sample_cy sample_lb).
  vm_compute; reflexivity.
Defined.

(** ** C6: lines the reader drops change nothing *)

Lemma parse_lines_junk json_loads p ls ls' :
  junk_extension json_loads ls ls' ->
  forall st, parse_lines json_loads p st ls' = parse_lines json_loads p st ls.
Proof.
  induction 1 as [|l ls ls' Hj IH|l ls ls' Hl Hj IH]; intros st; [reflexivity| |].
  - simpl. destruct (utf8_chars l) as [cs|]; [|reflexivity].
    destruct (py_startswith (py_strip cs) "{"); simpl; [|apply IH].
    destruct (json_loads (py_strip cs)) as [d| |e]; [|apply IH|reflexivity].
    destruct (process_record p st d); simpl; [apply IH | reflexivity].
  - unfold junk_line in Hl. simpl.
    destruct (utf8_chars l) as [cs|]; [|discriminate].
    destruct (py_startswith (py_strip cs) "{"); simpl in *; [|apply IH].
    destruct (json_loads (py_strip cs)); [discriminate | apply IH | discriminate].
Qed.

(** C6 (amended): inserting UTF-8 lines that, after [strip] (which removes
    all Unicode whitespace), do not start with [{], or on which [json.loads]
    raises [json.JSONDecodeError], anywhere in the file changes neither the
    loop's state (so neither [guesses] nor [elapsed_seconds]) nor the result
    of [parse_status_file]. Lines that are not UTF-8, or on which
    [json.loads] raises another exception, make the parse raise (see
    [parse_junk_counterexample]). *)
Theorem parse_status_file_junk json_loads p fs fs' ls ls'
  (Hfs : fs (filename p) = Some ls) (Hfs' : fs' (filename p) = Some ls')
  (Hj : junk_extension json_loads ls ls') :
  (forall st, parse_lines json_loads p st ls' = parse_lines json_loads p st ls) /\
  parse_status_file json_loads p fs' = parse_status_file json_loads p fs.
Proof.
  split; [apply parse_lines_junk; exact Hj|].
  unfold parse_status_file. rewrite Hfs, Hfs', (parse_lines_junk _ _ _ _ Hj). reflexivity.
Qed.

Lemma parse_status_file_junk_witness :
  parse_status_file sample_loads default_parser (file_of sample_lines_noisy)
    = parse_status_file sample_loads default_parser (file_of sample_lines).
Proof.
  apply (parse_status_file_junk sample_loads default_parser
           (file_of sample_lines) (file_of sample_lines_noisy) sample_lines sample_lines_noisy).
  - reflexivity.
  - reflexivity.
  - unfold sample_lines, sample_lines_noisy.
    apply je_junk; [vm_compute; reflexivity|].
    apply je_keep.
    apply je_junk; [vm_compute; reflexivity|].
    apply je_keep. apply je_keep.
    apply je_junk; [vm_compute; reflexivity|].
    apply je_nil.
Defined.

(** C6 (as stated, refuted): the byte [0xFF] and [{"a": ] followed by 5000
    [[] are lines that are not decodable JSON records, yet inserting either
    before [sample_lines] makes the parse raise [UnicodeDecodeError],
    respectively [RecursionError], where [sample_lines] alone parses. *)
Lemma parse_junk_counterexample :
  parse_status_file sample_loads default_parser (file_of sample_lines)
    = Ok (sample_cx, sample_cy, sample_lb) /\
  parse_status_file sample_loads default_parser
    (file_of (String.append line_not_utf8 nl :: sample_lines)) = Error UnicodeDecodeError /\
  parse_status_file sample_loads default_parser
    (file_of (String.append line_deep nl :: sample_lines)) = Error RecursionError.
Proof. split; [|split]; vm_compute; reflexivity. Qed.

(** [strip] removes the no-break space [U+00A0]: a record after it is read
    (the line is not junk) and parses as the record alone. *)
Lemma nbsp_line_is_record :
  junk_line sample_loads (String.append line_nbsp_b nl) = false /\
  parse_status_file sample_loads default_parser (file_of [String.append line_nbsp_b nl])
    = parse_status_file sample_loads default_parser (file_of [line_b "dict1"]) /\
  parse_status_file sample_loads default_parser (file_of [line_b "dict1"])
    = Ok ([[0; 10]], [[YObj (PInt 0); YFloat float_2]], [("unknown/dict1"%string, PNone)]).
Proof. split; [|split]; vm_compute; reflexivity. Qed.

(** ** C7: downsampling keeps every 60th point and the true last point *)

Lemma slice_step_aux_nth {A : Type} (s : nat) (Hs : (1 <= s)%nat) f :
  forall (l : list A), (List.length l <= f)%nat ->
  forall j, nth_error (slice_step_aux f s l) j = nth_error l (s * j).
Proof.
  induction f as [|f IH]; intros l Hl j.
  - destruct l; simpl in Hl; [|lia]. simpl. rewrite !nth_error_nil; reflexivity.
  - destruct l as [|a t]; simpl.
    + rewrite !nth_error_nil; reflexivity.
    + destruct j as [|j].
      * rewrite Nat.mul_0_r. reflexivity.
      * simpl. rewrite IH.
        -- rewrite nth_error_skipn.
           replace (s * S j)%nat with (S (s - 1 + s * j)) by lia. reflexivity.
        -- rewrite length_skipn. simpl in Hl. lia.
Qed.

Lemma slice_step_nth {A : Type} (l : list A) j :
  nth_error (slice_step sample_rate l) j = nth_error l (sample_rate * j).
Proof. apply slice_step_aux_nth; [unfold sample_rate; lia | lia]. Qed.

Lemma slice_step_length {A : Type} (l : list A) :
  List.length (slice_step sample_rate l) = ((List.length l + 59) / 60)%nat.
Proof.
  set (n := List.length l). set (m := ((n + 59) / 60)%nat).
  assert (Hdm := Nat.div_mod (n + 59) 60 ltac:(lia)).
  assert (Hr := Nat.mod_upper_bound (n + 59) 60 ltac:(lia)).
  fold m in Hdm.
  apply Nat.le_antisymm.
  - apply nth_error_None. rewrite slice_step_nth. apply nth_error_None.
    unfold sample_rate. fold n. lia.
  - destruct m as [|m'] eqn:Em; [lia|].
    assert (Hlt : (m' < List.length (slice_step sample_rate l))%nat); [|lia].
    apply nth_error_Some. rewrite slice_step_nth. apply nth_error_Some.
    unfold sample_rate. fold n. lia.
Qed.

Lemma last_opt_nth {A : Type} (l : list A) : last_opt l = nth_error l (List.length l - 1).
Proof.
  unfold last_opt. induction l as [|a l0 _] using rev_ind; [reflexivity|].
  rewrite rev_app_distr, length_app. simpl.
  rewrite nth_error_app2 by lia. replace (List.length l0 + 1 - 1 - List.length l0)%nat with O by lia.
  reflexivity.
Qed.

Lemma py_last_snoc {A : Type} (l0 : list A) a : py_last (l0 ++ [a]) = Ok a.
Proof. unfold py_last; rewrite rev_app_distr; reflexivity. Qed.

(** C7: a curve with at most 1000 points is left unchanged; a longer one
    keeps the points at indices [0, 60, 120, ...] (in x and in y), gets its
    true last point appended when the last index is not a multiple of 60,
    and so ends with the last (x, y) point of the original curve. *)
Theorem downsample_endpoint {A B : Type} (xs : list A) (ys : list B)
  (Hlen : List.length ys = List.length xs) :
  ((List.length xs <= 1000)%nat -> downsample xs ys = Ok (xs, ys)) /\
  ((1000 < List.length xs)%nat ->
   exists xs' ys', downsample xs ys = Ok (xs', ys') /\
     (forall j, (60 * j < List.length xs)%nat ->
        nth_error xs' j = nth_error xs (60 * j) /\ nth_error ys' j = nth_error ys (60 * j)) /\
     List.length xs' = ((List.length xs + 59) / 60 +
                        (if Nat.eqb ((List.length xs - 1) mod 60) 0 then 0 else 1))%nat /\
     last_opt xs' = last_opt xs /\ last_opt ys' = last_opt ys).
Proof.
  split.
  - intros Hle. unfold downsample.
    replace (Nat.ltb 1000 (List.length xs)) with false by (symmetry; apply Nat.ltb_ge; lia).
    reflexivity.
  - intros Hgt. unfold downsample.
    replace (Nat.ltb 1000 (List.length xs)) with true by (symmetry; apply Nat.ltb_lt; lia).
    set (n := List.length xs) in *.
    assert (Hdm := Nat.div_mod (n + 59) 60 ltac:(lia)).
    assert (Hr := Nat.mod_upper_bound (n + 59) 60 ltac:(lia)).
    assert (Hsx := slice_step_length xs). assert (Hsy := slice_step_length ys).
    fold n in Hsx. rewrite Hlen in Hsy. fold n in Hsy.
    assert (Hnth : forall j, (60 * j < n)%nat ->
              nth_error (slice_step sample_rate xs) j = nth_error xs (60 * j) /\
              nth_error (slice_step sample_rate ys) j = nth_error ys (60 * j)).
    { intros j _. rewrite !slice_step_nth. auto. }
    assert (Hxne : xs <> []) by (intros E; unfold n in Hgt; rewrite E in Hgt; simpl in Hgt; lia).
    assert (Hyne : ys <> []) by (intros E; rewrite E in Hlen; simpl in Hlen; lia).
    destruct (list_snoc _ Hxne) as (xs0 & lx & Ex).
    destruct (list_snoc _ Hyne) as (ys0 & ly & Ey).
    change (Nat.modulo (n - 1) sample_rate) with ((n - 1) mod 60)%nat.
    destruct (Nat.eqb ((n - 1) mod 60) 0) eqn:Em; simpl negb; cbv iota.
    + eexists _, _; split; [reflexivity|].
      apply Nat.eqb_eq in Em.
      assert (Hdm1 := Nat.div_mod (n - 1) 60 ltac:(lia)). rewrite Em in Hdm1.
      set (q := ((n - 1) / 60)%nat) in *.
      set (m := ((n + 59) / 60)%nat) in *.
      split; [exact Hnth|]. split; [rewrite Hsx; lia|].
      rewrite !last_opt_nth, Hsx, Hsy, Hlen. fold n.
      rewrite !slice_step_nth. unfold sample_rate.
      replace (60 * (m - 1))%nat with (n - 1)%nat by lia. auto.
    + set (m := ((n + 59) / 60)%nat) in *.
      replace (py_last xs) with (Ok lx : result A) by (rewrite Ex; symmetry; apply py_last_snoc).
      replace (py_last ys) with (Ok ly : result B) by (rewrite Ey; symmetry; apply py_last_snoc).
      simpl.
      eexists _, _; split; [reflexivity|].
      split.
      * intros j Hj.
        rewrite !nth_error_app1 by lia. apply Hnth; exact Hj.
      * split; [rewrite length_app, Hsx; simpl; lia|].
        rewrite Ex, Ey, !last_opt_app. auto.
Qed.

Lemma downsample_endpoint_witness :
  List.length (seq 0 1002) = List.length (seq 0 1002) /\
  downsample (seq 0 1002) (seq 0 1002) =
    Ok (map (fun j => 60 * j)%nat (seq 0 17) ++ [1001%nat],
        map (fun j => 60 * j)%nat (seq 0 17) ++ [1001%nat]) /\
  ((1000 < List.length (seq 0 1002))%nat ->
   exists xs' ys', downsample (seq 0 1002) (seq 0 1002) = Ok (xs', ys') /\
     (forall j, (60 * j < List.length (seq 0 1002))%nat ->
        nth_error xs' j = nth_error (seq 0 1002) (60 * j) /\
        nth_error ys' j = nth_error (seq 0 1002) (60 * j)) /\
     List.length xs' = ((List.length (seq 0 1002) + 59) / 60 +
        (if Nat.eqb ((List.length (seq 0 1002) - 1) mod 60) 0 then 0 else 1))%nat /\
     last_opt xs' = last_opt (seq 0 1002) /\ last_opt ys' = last_opt (seq 0 1002)).
Proof.
  split; [reflexivity|]. split; [vm_compute; reflexivity|].
  apply (downsample_endpoint (seq 0 1002) (seq 0 1002)). reflexivity.
Defined.

(** ** C8: a non-positive total is replaced by 1 *)

Lemma py_int_truediv_nonzero a b : b <> 0 -> py_int_truediv a b <> Error ZeroDivisionError.
Proof.
  intros Hb. unfold py_int_truediv.
  replace (b =? 0) with false by (symmetry; apply Z.eqb_neq; exact Hb).
  destruct (a =? 0); [discriminate|].
  destruct (SFdiv_core_binary 53 1024 (Z.abs a) 0 (Z.abs b) 0) as [[q e] l].
  destruct (binary_round_aux 53 1024 (xorb (a <? 0) (b <? 0)) q e l); discriminate.
Qed.

Lemma recovered_y_nonpositive p c t :
  String.eqb (y_axis_type p) "count" = false -> t <= 0 ->
  recovered_y p (PList [PInt c; PInt t]) = py_percent (PInt c) (PInt 1).
Proof.
  intros Hy Ht. unfold recovered_y. simpl. rewrite Hy.
  replace (0 <? t) with false by (symmetry; apply Z.ltb_ge; exact Ht). reflexivity.
Qed.

Lemma percent_one_exact c : Z.abs c * 100 < 2 ^ 53 ->
  exists f, py_percent (PInt c) (PInt 1) = Ok (YFloat f) /\ float_denotes f (c * 100) = true.
Proof.
  intros Hc. destruct (percent_exact c Hc) as (f & E & Hf).
  unfold py_percent. simpl.
  destruct (py_int_truediv c 1) as [q|e]; simpl in *; [|discriminate].
  injection E as <-. exists (SFmul 53 1024 q hundred). split; [reflexivity | exact Hf].
Qed.

(** C8 (amended): when [y_axis_type] is not ["count"], [recovered_hashes =
    [c, t]] with [t <= 0] takes [total = 1]: the y value is [(c / 1) * 100],
    which never raises [ZeroDivisionError], and is the double [c * 100]
    whenever [|c| * 100 < 2 ^ 53]; in particular [[5, 0]] gives [500.0].
    Larger [c] are rounded, and [|c| >= 2 ^ 1024] raises [OverflowError]
    (see [percentage_rounding_counterexample]). *)
Theorem percentage_nonpositive_total p c t
  (Hy : String.eqb (y_axis_type p) "count" = false) (Ht : t <= 0) :
  recovered_y p (PList [PInt c; PInt t]) = py_percent (PInt c) (PInt 1) /\
  recovered_y p (PList [PInt c; PInt t]) <> Error ZeroDivisionError /\
  (Z.abs c * 100 < 2 ^ 53 ->
   exists f, recovered_y p (PList [PInt c; PInt t]) = Ok (YFloat f) /\
             float_denotes f (c * 100) = true) /\
  exists f, recovered_y p (PList [PInt 5; PInt 0]) = Ok (YFloat f) /\ float_denotes f 500 = true.
Proof.
  rewrite (recovered_y_nonpositive p c t Hy Ht).
  split; [reflexivity|]. split.
  - unfold py_percent. simpl.
    pose proof (py_int_truediv_nonzero c 1 ltac:(lia)) as Hn.
    destruct (py_int_truediv c 1) as [q|e]; simpl; [discriminate|].
    intros [= ->]. exact (Hn eq_refl).
  - split; [apply percent_one_exact|].
    rewrite (recovered_y_nonpositive p 5 0 Hy ltac:(lia)).
    apply (percent_one_exact 5). lia.
Qed.

Lemma percentage_nonpositive_total_witness :
  recovered_y default_parser (PList [PInt 7; PInt 0]) = py_percent (PInt 7) (PInt 1) /\
  recovered_y default_parser (PList [PInt 7; PInt 0]) <> Error ZeroDivisionError /\
  (Z.abs 7 * 100 < 2 ^ 53 ->
   exists f, recovered_y default_parser (PList [PInt 7; PInt 0]) = Ok (YFloat f) /\
             float_denotes f (7 * 100) = true) /\
  exists f, recovered_y default_parser (PList [PInt 5; PInt 0]) = Ok (YFloat f) /\
            float_denotes f 500 = true.
Proof.
  apply (percentage_nonpositive_total default_parser 7 0); [reflexivity | lia].
Defined.

(** C8 (as stated, refuted): the y value is a double, not [c * 100]:
    [[2 ^ 53 + 1, 0]] gives [900719925474099200.0], which is not
    [(2 ^ 53 + 1) * 100], and [[10 ^ 400, 0]] raises [OverflowError] in
    [10 ** 400 / 1]. *)
Lemma percentage_rounding_counterexample :
  recovered_y default_parser (PList [PInt (2 ^ 53 + 1); PInt 0])
    = Ok (YFloat (S754_finite false 7036874417766400 7)) /\
  float_denotes (S754_finite false 7036874417766400 7) 900719925474099200 = true /\
  float_denotes (S754_finite false 7036874417766400 7) ((2 ^ 53 + 1) * 100) = false /\
  recovered_y default_parser (PList [PInt (10 ^ 400); PInt 0]) = Error OverflowError.
Proof. split; [|split; [|split]]; vm_compute; reflexivity. Qed.

(** ** C1: what happens at a phase change *)

(** C1 (as stated, refuted): after [dict1] then [potfile] records, the first
    curve is still [[0; 10]]; it is not closed with the new point [20], and
    the second curve starts at the old point [10], not at [20]. *)
Lemma phase_change_counterexample :
  match process_records default_parser init_state [rec_b "dict1"; rec_b potfile_long] with
  | Ok st =>
      curves_x st = [[0; 10]; [10; 20]] /\
      nth 0 (curves_x st) [] <> [0; 10; 20] /\
      hd_error (nth 1 (curves_x st) []) <> Some 20
  | Error _ => False
  end.
Proof. vm_compute. split; [reflexivity | split; discriminate]. Qed.

(** C1 (amended): when a record's key differs from the current one and it
    is not the first record, the existing curves are left unchanged and one
    new curve is appended whose points are the last point of the previous
    curve followed by the record's [(x, y)]; the key becomes current and
    is appended to the labels. *)
Theorem phase_change_new_curve p st d g x y k c st'
  (Hax : axis_values p st d = Ok (g, x, y)) (Hk : attack_key d = Ok k)
  (Hc : current_identifier st = Some c) (Hne : key_eqb k c = false)
  (Hp : process_record p st d = Ok st') :
  exists lx ly,
    last_point (curves_x st) = Ok lx /\ last_point (curves_y st) = Ok ly /\
    curves_x st' = curves_x st ++ [[lx; x]] /\
    curves_y st' = curves_y st ++ [[ly; y]] /\
    label_list st' = label_list st ++ [k] /\
    current_identifier st' = Some k.
Proof.
  destruct (process_record_cases _ _ _ _ Hp) as (g' & x' & y' & k' & st'' & Hax' & Hk' & Hup & ->).
  rewrite Hax in Hax'. injection Hax' as <- <- <-.
  rewrite Hk in Hk'. injection Hk' as <-.
  destruct (update_curves_cases _ _ _ _ _ Hup)
    as [[Hc' _] | [(c' & lx & ly & Hc' & Hk' & Hlx & Hly & ->) | (c' & cx & cy & Hc' & Hk' & _ & _ & _)]];
    simpl in *; rewrite Hc in Hc'; try discriminate.
  - exists lx, ly. repeat split; auto.
  - injection Hc' as <-. congruence.
Qed.

Lemma phase_change_new_curve_witness :
  exists lx ly,
    last_point (curves_x st_after_dict1) = Ok lx /\ last_point (curves_y st_after_dict1) = Ok ly /\
    curves_x st_after_potfile
      = curves_x st_after_dict1 ++ [[lx; 20]] /\
    curves_y st_after_potfile
      = curves_y st_after_dict1 ++ [[ly; YFloat float_2]] /\
    label_list st_after_potfile
      = label_list st_after_dict1 ++ [("unknown/potfile"%string, PNone)] /\
    current_identifier st_after_potfile
      = Some ("unknown/potfile"%string, PNone).
Proof.
  apply (phase_change_new_curve default_parser st_after_dict1 (rec_b potfile_long)
           20 20 (YFloat float_2) ("unknown/potfile"%string, PNone) ("unknown/dict1"%string, PNone)).
  - vm_compute; reflexivity.
  - vm_compute; reflexivity.
  - reflexivity.
  - vm_compute; reflexivity.
  - vm_compute; reflexivity.
Defined.

(** ** C2: one curve per maximal run of equal keys *)

(** C2 (as stated, refuted): two records with the same [time_start]
    (absent) and [guess_base] ([dict1]) but different [guess_mod] give two
    curves, not one. *)
Lemma curve_count_guess_mod_counterexample :
  py_get (rec_mod "a") "time_start" PNone = py_get (rec_mod "b") "time_start" PNone /\
  attack_key (rec_mod "a") = Ok ("unknown/dict1"%string, PStr "a") /\
  attack_key (rec_mod "b") = Ok ("unknown/dict1"%string, PStr "b") /\
  match process_records default_parser init_state [rec_mod "a"; rec_mod "b"] with
  | Ok st => List.length (curves_x st) = 2%nat
  | Error _ => False
  end.
Proof. vm_compute. repeat split; reflexivity. Qed.

Lemma process_records_runs p ds : forall st st',
  process_records p st ds = Ok st' ->
  exists ks, record_keys ds = Ok ks /\
    (current_identifier st = None ->
       List.length (curves_x st') = (List.length (curves_x st) + run_count ks)%nat) /\
    (forall h prev, current_identifier st = Some h -> key_eqb prev h = true ->
       List.length (curves_x st') = (List.length (curves_x st) + run_boundaries prev ks)%nat).
Proof.
  induction ds as [|d t IH]; intros st st' H; simpl in H.
  - injection H as <-. exists []. simpl. repeat split; intros; lia.
  - destruct (process_record p st d) as [s1|] eqn:E1; simpl in H; [|discriminate].
    destruct (IH s1 st' H) as (ks & Hks & _ & Hsome).
    destruct (process_record_cases _ _ _ _ E1) as (g & x & y & k & s2 & _ & Hk & Hup & Es1).
    exists (k :: ks). simpl. rewrite Hk, Hks. simpl. split; [reflexivity|].
    destruct (update_curves_cases _ _ _ _ _ Hup)
      as [[Hc Es2] | [(c & lx & ly & Hc & Hne & _ & _ & Es2) | (c & cx & cy & Hc & Heq & Hax & _ & Es2)]];
      subst s1 s2; simpl in *.
    + split; [|intros h prev Hh; congruence].
      intros _. rewrite (Hsome k k eq_refl (key_eqb_refl k)), length_app. simpl. lia.
    + split; [intros Hn; congruence|].
      intros h prev Hh Hprev. rewrite Hh in Hc. injection Hc as <-.
      rewrite (Hsome k k eq_refl (key_eqb_refl k)), length_app. simpl.
      destruct (key_eqb k prev) eqn:Ekp; [|lia].
      rewrite (key_eqb_trans _ _ _ Ekp Hprev) in Hne. discriminate.
    + split; [intros Hn; congruence|].
      intros h prev Hh Hprev. rewrite Hh in Hc. injection Hc as <-.
      rewrite (Hsome h k Hh Heq), (append_last_length _ _ _ Hax).
      rewrite key_eqb_sym in Hprev.
      rewrite (key_eqb_trans _ _ _ Heq Hprev). lia.
Qed.

(** C2 (amended): for every output of [parse_status_file], the number of
    curves equals the number of maximal runs of equal keys in the stream of
    decodable records, where a record's key is the pair
    [(f"{time_start}/{guess_base}", guess_mod)] with the substring
    ["autocat_new_cracked_potfile"] of [guess_base] replaced by ["potfile"];
    a change of [guess_mod] alone starts a new curve. *)
Theorem curve_count_runs json_loads p fs cx cy lb
  (H : parse_status_file json_loads p fs = Ok (cx, cy, lb)) :
  exists rs ks, source_records json_loads p fs = Ok rs /\ record_keys rs = Ok ks /\
                List.length cx = run_count ks.
Proof.
  destruct (parse_status_file_sources _ _ _ _ H) as (rs & Hrs & H').
  destruct (process_records p init_state rs) as [st|] eqn:E; simpl in H'; [|discriminate].
  injection H' as <- _ _.
  destruct (process_records_runs _ _ _ _ E) as (ks & Hks & Hnone & _).
  exists rs, ks. split; [exact Hrs|]. split; [exact Hks|]. rewrite (Hnone eq_refl). reflexivity.
Qed.

Lemma curve_count_runs_witness :
  parse_status_file sample_loads default_parser (file_of sample_lines)
    = Ok (sample_cx, sample_cy, sample_lb) /\
  exists rs ks, source_records sample_loads default_parser (file_of sample_lines) = Ok rs /\
                record_keys rs = Ok ks /\ List.length sample_cx = run_count ks.
Proof.
  split; [vm_compute; reflexivity|].
  apply (curve_count_runs sample_loads default_parser (file_of sample_lines)
           sample_cx sample_cy sample_lb).
  vm_compute; reflexivity.
Defined.

(** ** C3: which inputs the parse accepts without raising *)



Lemma bind_ok {A B : Type} (a : A) (f : A -> result B) : bind (Ok a) f = f a.
Proof. reflexivity. Qed.









(** ** C4: scenario B *)

(** [(2 / 100) * 100] is the double [float_2], which is the integer [2]. *)
Lemma percent_2_100 :
  py_percent (PInt 2) (PInt 100) = Ok (YFloat float_2) /\ float_denotes float_2 2 = true.
Proof. split; vm_compute; reflexivity. Qed.

Lemma scenario_b_axis p st ts gm r :
  x_axis_type p = "guesses"%string -> y_axis_type p = "percentage"%string ->
  scenario_b_record ts gm r ->
  axis_values p st r = Ok (guesses st + 10, guesses st + 10, YFloat float_2).
Proof.
  intros Hx Hy (d & g & -> & Ep & Er & _ & _ & _ & _).
  unfold axis_values, recovered_y, py_get. rewrite Ep, Er, Hx, Hy. reflexivity.
Qed.

Lemma scenario_b_key ts gm r :
  scenario_b_record ts gm r ->
  attack_key r = Ok (String.append (py_str (match ts with Some v => v | None => PStr "unknown" end))
                                   "/dict1",
                     match gm with Some v => v | None => PNone end).
Proof.
  intros (d & g & -> & _ & _ & Eg & Eb & Em & Et).
  unfold attack_key, py_get. rewrite Eg. simpl. rewrite Eb, Em. simpl. rewrite Et. reflexivity.
Qed.

(** C4: under [x_axis_type = "guesses"] and [y_axis_type = "percentage"], a
    status file whose decodable records are exactly three records with
    [progress = [10]], [recovered_hashes = [2, 100]] and
    [guess_base = "dict1"] (and, as in the scenario, no difference in the
    other key fields [time_start] and [guess_mod]) parses to one curve with
    x values [[0; 10; 20; 30]], y values [[0; 2.0; 2.0; 2.0]] (the leading
    [(0, 0)] anchor, then three percentages) and one label. *)
Theorem scenario_b json_loads p fs ts gm r1 r2 r3
  (Hx : x_axis_type p = "guesses"%string) (Hy : y_axis_type p = "percentage"%string)
  (Hrec : source_records json_loads p fs = Ok [r1; r2; r3])
  (H1 : scenario_b_record ts gm r1) (H2 : scenario_b_record ts gm r2)
  (H3 : scenario_b_record ts gm r3) :
  exists lb,
    parse_status_file json_loads p fs
      = Ok ([[0; 10; 20; 30]], [[YObj (PInt 0); YFloat float_2; YFloat float_2; YFloat float_2]], lb) /\
    List.length lb = 1%nat.
Proof.
  rewrite (parse_status_file_records _ _ _ _ Hrec).
  cbn [process_records]. unfold process_record.
  rewrite (scenario_b_axis p _ ts gm r1 Hx Hy H1), bind_ok, (scenario_b_key ts gm r1 H1), bind_ok.
  set (k := (String.append _ _, _)).
  cbn [update_curves same_identifier current_identifier negb curves_x curves_y label_list
       guesses elapsed_seconds init_state app]. rewrite !bind_ok.
  cbn [guesses current_identifier elapsed_seconds curves_x curves_y label_list].
  rewrite (scenario_b_axis p _ ts gm r2 Hx Hy H2), bind_ok, (scenario_b_key ts gm r2 H2), bind_ok.
  fold k. unfold update_curves. cbn [current_identifier same_identifier].
  rewrite key_eqb_refl. cbn [negb curves_x curves_y append_last app]. rewrite !bind_ok.
  cbn [guesses current_identifier elapsed_seconds curves_x curves_y label_list].
  rewrite (scenario_b_axis p _ ts gm r3 Hx Hy H3), bind_ok, (scenario_b_key ts gm r3 H3), bind_ok.
  fold k. cbn [current_identifier same_identifier].
  rewrite key_eqb_refl. cbn [negb curves_x curves_y append_last app]. rewrite !bind_ok.
  exists [k]. split; [reflexivity | reflexivity].
Qed.

Lemma scenario_b_witness :
  exists lb,
    parse_status_file sample_loads default_parser (file_of scenario_b_lines)
      = Ok ([[0; 10; 20; 30]], [[YObj (PInt 0); YFloat float_2; YFloat float_2; YFloat float_2]], lb) /\
    List.length lb = 1%nat.
Proof.
  assert (Hr : scenario_b_record None None (rec_b "dict1")).
  { exists [fld "progress" (PList [PInt 10]); fld "recovered_hashes" (PList [PInt 2; PInt 100]);
            fld "guess" (PDict [fld "guess_base" (PStr "dict1")])],
           [fld "guess_base" (PStr "dict1")].
    repeat split. }
  apply (scenario_b sample_loads default_parser (file_of scenario_b_lines) None None
           (rec_b "dict1") (rec_b "dict1") (rec_b "dict1")); try exact Hr; reflexivity.
Defined.

(** ** The legend name of a curve *)

Lemma split_char_cons sep s : exists w ws, split_char sep s = w :: ws.
Proof.
  induction s as [|c t IH]; simpl; [eauto|].
  destruct IH as (w & ws & ->). destruct (Ascii.eqb c sep); eauto.
Qed.

Lemma split_char_after_sep sep a b :
  exists w pre, split_char sep (String.append a (String sep b)) = (w :: pre) ++ split_char sep b.
Proof.
  induction a as [|c a' IH]; cbn [String.append split_char].
  - destruct (split_char_cons sep b) as (w & ws & E). rewrite E, Ascii.eqb_refl.
    exists EmptyString, []. reflexivity.
  - destruct IH as (w & pre & ->). cbn [List.app].
    destruct (Ascii.eqb c sep).
    + exists EmptyString, (w :: pre). reflexivity.
    + exists (String c w), pre. reflexivity.
Qed.

Lemma py_last_app_cons {A : Type} (l0 : list A) a l : py_last (l0 ++ a :: l) = py_last (a :: l).
Proof.
  unfold py_last. rewrite rev_app_distr.
  destruct (rev (a :: l)) as [|b r] eqn:E; [|reflexivity].
  apply (f_equal (@List.length A)) in E. rewrite length_rev in E. discriminate.
Qed.

Lemma last_piece_after_slash a b :
  last_piece (String.append a (String.append "/" b)) = last_piece b.
Proof.
  unfold last_piece. change (String.append "/" b) with (String slash b).
  destruct (split_char_after_sep slash a b) as (w & pre & ->).
  destruct (split_char_cons slash b) as (w' & ws & E). rewrite E.
  apply py_last_app_cons.
Qed.

Lemma split_char_no_sep s : Forall (fun w => has_char slash w = false) (split_char slash s).
Proof.
  induction s as [|c t IH]; cbn [split_char]; [repeat constructor|].
  destruct (split_char_cons slash t) as (w & ws & E). rewrite E in *.
  inversion IH as [|? ? Hw Hws]; subst.
  destruct (Ascii.eqb c slash) eqn:Ec; repeat constructor; auto.
  cbn [has_char]. rewrite Hw, orb_false_r. rewrite Ascii.eqb_sym. exact Ec.
Qed.

Lemma py_last_In {A : Type} (l : list A) a : py_last l = Ok a -> In a l.
Proof.
  unfold py_last. destruct (rev l) as [|b r] eqn:E; intros H; [discriminate|].
  injection H as <-. apply in_rev. rewrite E. left; reflexivity.
Qed.

Lemma last_piece_ok s : exists w, last_piece s = Ok w /\ has_char slash w = false.
Proof.
  unfold last_piece. assert (Hf := split_char_no_sep s).
  destruct (split_char_cons slash s) as (w0 & ws & E).
  destruct (py_last (split_char slash s)) as [w|] eqn:El.
  - exists w. split; [reflexivity|].
    apply py_last_In in El. rewrite Forall_forall in Hf. apply Hf, El.
  - exfalso. revert El. rewrite E. unfold py_last.
    destruct (rev (w0 :: ws)) as [|b r] eqn:Er; [|discriminate].
    apply (f_equal (@List.length string)) in Er. rewrite length_rev in Er. discriminate.
Qed.

Lemma has_char_append c a b : has_char c (String.append a b) = has_char c a || has_char c b.
Proof. induction a as [|c' t IH]; simpl; [reflexivity|]. rewrite IH, orb_assoc. reflexivity. Qed.

(** The legend name exists exactly when [guess_mod] is [None] or a string;
    otherwise the [split] on it raises. *)
Lemma attack_label_cases k :
  (label_ok k = true -> exists n, attack_label k = Ok n /\ has_char slash n = false) /\
  (label_ok k = false -> attack_label k = Error AttributeError).
Proof.
  destruct k as [b m]. unfold label_ok, attack_label; simpl.
  destruct (last_piece_ok b) as (wb & Eb & Hb).
  destruct m as [|[|]|zm|s|lm|dm]; simpl; split; intros H; try discriminate;
    try (rewrite Eb; reflexivity).
  - exists wb. auto.
  - destruct (last_piece_ok s) as (ws & Es & Hs). rewrite Eb, Es. simpl.
    eexists; split; [reflexivity|].
    rewrite !has_char_append, Hb. cbn [has_char]. rewrite Hs. reflexivity.
Qed.

(** ** Potfile curves are drawn black *)

Lemma prefix_append a b : String.prefix a (String.append a b) = true.
Proof.
  induction a as [|c t IH]; simpl; [destruct b; reflexivity|].
  destruct (ascii_dec c c) as [_|n]; [exact IH | congruence].
Qed.

Lemma py_in_cons sub c s : py_in sub s = true -> py_in sub (String c s) = true.
Proof. intros H. simpl. rewrite H, orb_true_r. reflexivity. Qed.

Lemma py_in_append_r sub a b : py_in sub b = true -> py_in sub (String.append a b) = true.
Proof. induction a as [|c t IH]; simpl; intros H; [exact H|]. apply py_in_cons, IH, H. Qed.

Lemma py_in_of_prefix sub s : String.prefix sub s = true -> py_in sub s = true.
Proof. destruct s; cbn [py_in]; intros ->; reflexivity. Qed.

Lemma replace_keeps_new old new s :
  old <> EmptyString -> py_in old s = true -> py_in new (replace_aux old new s O) = true.
Proof.
  intros Hold. induction s as [|c t IH]; intros H.
  - destruct old; [congruence | discriminate].
  - cbn [py_in] in H. cbn [replace_aux].
    destruct (String.prefix old (String c t)) eqn:Ep.
    + apply py_in_of_prefix, prefix_append.
    + cbn [orb] in H. apply py_in_cons, IH, H.
Qed.

(** The legend name of a curve labelled [(f"{time_start}/{guess_base}",
    guess_mod)] does not depend on [time_start], and no legend name
    contains a ['/']. *)
Theorem legend_name_drops_time_start time_start guess_base guess_mod :
  attack_label (String.append time_start (String.append "/" guess_base), guess_mod)
    = attack_label (guess_base, guess_mod) /\
  (forall k n, attack_label k = Ok n -> has_char slash n = false).
Proof.
  split.
  - unfold attack_label. rewrite last_piece_after_slash. reflexivity.
  - intros k n Hn. destruct (label_ok k) eqn:Ek.
    + destruct (proj1 (attack_label_cases k) Ek) as (n' & E & Hs). congruence.
    + rewrite (proj2 (attack_label_cases k) Ek) in Hn. discriminate.
Qed.

(** A record whose [guess_base] contains ["autocat_new_cracked_potfile"]
    gets a label containing ["potfile"], so its curve is drawn black unless
    highlighting is turned off. *)
Theorem potfile_attack_black dd g s k
  (Hg : dict_get dd "guess" = Some (PDict g)) (Hb : dict_get g "guess_base" = Some (PStr s))
  (Hs : py_in potfile_long s = true) (Hk : attack_key (PDict dd) = Ok k) :
  potfile_color false (fst k) = Some "black"%string /\ potfile_color true (fst k) = None.
Proof.
  unfold attack_key, py_get in Hk. rewrite Hg in Hk. cbn [bind] in Hk.
  rewrite Hb in Hk. cbn [bind py_replace] in Hk. injection Hk as <-.
  unfold potfile_color. cbn [fst].
  rewrite (py_in_append_r _ _ _ (py_in_append_r _ "/" _
             (replace_keeps_new potfile_long "potfile" s ltac:(discriminate) Hs))).
  split; reflexivity.
Qed.

Lemma potfile_attack_black_witness :
  potfile_color false "unknown/potfile" = Some "black"%string /\ potfile_color true "unknown/potfile" = None.
Proof.
  apply (potfile_attack_black
           [fld "progress" (PList [PInt 10]); fld "recovered_hashes" (PList [PInt 2; PInt 100]);
            fld "guess" (PDict [fld "guess_base" (PStr potfile_long)])]
           [fld "guess_base" (PStr potfile_long)] potfile_long ("unknown/potfile"%string, PNone));
    vm_compute; reflexivity.
Defined.

(** ** Each x curve has as many points as its y curve *)

Lemma append_last_pair {A B : Type} (cx : list (list A)) : forall (cy : list (list B)) x y cx' cy',
  Forall2 (fun a b => List.length a = List.length b) cx cy ->
  append_last cx x = Ok cx' -> append_last cy y = Ok cy' ->
  Forall2 (fun a b => List.length a = List.length b) cx' cy'.
Proof.
  induction cx as [|c t IH]; intros cy x y cx' cy' Hf Hx Hy; [discriminate|].
  inversion Hf as [|? d ? t' Hcd Ht]; subst.
  destruct t as [|c1 t1].
  - inversion Ht; subst. cbn in Hx, Hy. injection Hx as <-. injection Hy as <-.
    constructor; [rewrite !length_app; simpl; lia | constructor].
  - inversion Ht as [|? d1 ? t1' Hcd1 Ht1]; subst.
    change (append_last (c :: c1 :: t1) x)
      with (bind (append_last (c1 :: t1) x) (fun r => Ok (c :: r))) in Hx.
    change (append_last (d :: d1 :: t1') y)
      with (bind (append_last (d1 :: t1') y) (fun r => Ok (d :: r))) in Hy.
    destruct (append_last (c1 :: t1) x) as [r|] eqn:Ex; [|discriminate].
    destruct (append_last (d1 :: t1') y) as [r'|] eqn:Ey; [|discriminate].
    cbn [bind] in Hx, Hy. injection Hx as <-. injection Hy as <-.
    constructor; [exact Hcd|]. apply (IH (d1 :: t1') x y); auto.
Qed.

Lemma update_curves_pair st x y k st' :
  pair_lengths (curves_x st) (curves_y st) -> update_curves st x y k = Ok st' ->
  pair_lengths (curves_x st') (curves_y st').
Proof.
  unfold pair_lengths. intros Hp Hup.
  destruct (update_curves_cases _ _ _ _ _ Hup)
    as [[Hc ->] | [(c & lx & ly & Hc & Hk & Hlx & Hly & ->) | (c & cx & cy & Hc & Hk & Hax & Hay & ->)]];
    cbn [curves_x curves_y].
  - apply Forall2_app; [exact Hp | repeat constructor].
  - apply Forall2_app; [exact Hp | repeat constructor].
  - apply (append_last_pair _ _ _ _ _ _ Hp Hax Hay).
Qed.

Lemma process_records_pair p ds : forall st st',
  pair_lengths (curves_x st) (curves_y st) -> process_records p st ds = Ok st' ->
  pair_lengths (curves_x st') (curves_y st').
Proof.
  induction ds as [|d t IH]; intros st st' Hp H; cbn [process_records] in H.
  - injection H as <-; exact Hp.
  - destruct (process_record p st d) as [s1|] eqn:E; cbn [bind] in H; [|discriminate].
    apply (IH s1); [|exact H].
    destruct (process_record_cases _ _ _ _ E) as (g & x & y & k & st'' & _ & _ & Hup & ->).
    exact (update_curves_pair (mk_state g (current_identifier st) (elapsed_seconds st)
                                        (curves_x st) (curves_y st) (label_list st))
                              x y k st'' Hp Hup).
Qed.

Lemma parse_status_file_pair json_loads p fs cx cy lb :
  parse_status_file json_loads p fs = Ok (cx, cy, lb) ->
  List.length cx = List.length cy /\ List.length cy = List.length lb /\ pair_lengths cx cy.
Proof.
  intros H. destruct (parse_status_file_sources _ _ _ _ H) as (rs & _ & H'). revert H'.
  destruct (process_records p init_state rs) as [st|] eqn:E; cbn [bind]; [|discriminate].
  intros [= <- <- <-].
  destruct (process_records_inv p _ init_state st init_state_inv E) as (H1 & H2 & _).
  split; [exact H1|]. split; [exact H2|].
  apply (process_records_pair p rs init_state st); [constructor | exact E].
Qed.

(** ** The traces of one file *)

Lemma map_result_ok {A B : Type} (f : A -> result B) l : forall ts,
  map_result f l = Ok ts ->
  List.length ts = List.length l /\
  forall k t, nth_error ts k = Some t -> exists a, nth_error l k = Some a /\ f a = Ok t.
Proof.
  induction l as [|a l IH]; intros ts H; cbn [map_result] in H.
  - injection H as <-. split; [reflexivity|]. intros k t Ht. rewrite nth_error_nil in Ht. discriminate.
  - destruct (f a) as [b|] eqn:Ea; cbn [bind] in H; [|discriminate].
    destruct (map_result f l) as [r|] eqn:Er; cbn [bind] in H; [|discriminate].
    injection H as <-. destruct (IH r eq_refl) as [Hl Hn].
    split; [cbn; rewrite Hl; reflexivity|].
    intros [|k] t Ht; cbn in Ht |- *.
    + injection Ht as <-. eauto.
    + apply Hn, Ht.
Qed.

Lemma map_result_ok_all {A B : Type} (f : A -> result B) l ts :
  map_result f l = Ok ts -> forall a, In a l -> exists b, f a = Ok b.
Proof.
  revert ts; induction l as [|a0 l IH]; intros ts H a Ha; [destruct Ha|].
  cbn [map_result] in H.
  destruct (f a0) as [b|] eqn:Ea; cbn [bind] in H; [|discriminate].
  destruct (map_result f l) as [r|] eqn:Er; cbn [bind] in H; [|discriminate].
  destruct Ha as [<-|Ha]; [eauto | apply (IH r eq_refl a Ha)].
Qed.

Lemma map_result_error {A B : Type} (f : A -> result B) l e :
  map_result f l = Error e -> exists a, In a l /\ f a = Error e.
Proof.
  induction l as [|a l IH]; intros H; cbn [map_result] in H; [discriminate|].
  destruct (f a) as [b|] eqn:Ea; cbn [bind] in H.
  - destruct (map_result f l) as [r|] eqn:Er; cbn [bind] in H; [discriminate|].
    injection H as ->. destruct (IH eq_refl) as (a' & Hin & Ha'). exists a'. split; [right|]; auto.
  - injection H as ->. exists a. split; [left|]; auto.
Qed.

Lemma nth_error_seq0 n k a : nth_error (seq 0 n) k = Some a -> a = k /\ (k < n)%nat.
Proof.
  intros H.
  assert (Hk : (k < n)%nat) by (rewrite <- (length_seq n 0); apply nth_error_Some; congruence).
  split; [|exact Hk].
  apply (nth_error_nth _ _ 0%nat) in H. rewrite seq_nth in H by exact Hk. lia.
Qed.

Lemma Forall2_nth_error {A B : Type} (R : A -> B -> Prop) l1 l2 :
  Forall2 R l1 l2 -> forall k a, nth_error l1 k = Some a -> exists b, nth_error l2 k = Some b /\ R a b.
Proof.
  induction 1 as [|x y l1' l2' Hxy _ IH]; intros k a Ha.
  - rewrite nth_error_nil in Ha. discriminate.
  - destruct k as [|k]; cbn in Ha |- *; [injection Ha as <-; eauto | apply IH, Ha].
Qed.

Lemma py_last_ok {A : Type} (l : list A) : l <> [] -> exists a, py_last l = Ok a.
Proof. intros H. destruct (list_snoc l H) as (l0 & a & ->). exists a. apply py_last_snoc. Qed.

Lemma downsample_ok {A B : Type} (xs : list A) (ys : list B) :
  List.length ys = List.length xs ->
  exists xs' ys', downsample xs ys = Ok (xs', ys') /\ List.length xs' = List.length ys'.
Proof.
  intros Hl. unfold downsample.
  destruct (Nat.ltb 1000 (List.length xs)) eqn:E; [|eauto].
  apply Nat.ltb_lt in E.
  destruct (negb _).
  - destruct (py_last_ok xs) as (lx & Ex); [intros ->; simpl in E; lia|].
    destruct (py_last_ok ys) as (ly & Ey); [intros ->; simpl in Hl; lia|].
    rewrite Ex, Ey. cbn [bind]. do 2 eexists. split; [reflexivity|].
    rewrite !length_app, !slice_step_length, Hl. reflexivity.
  - do 2 eexists. split; [reflexivity|]. rewrite !slice_step_length, Hl. reflexivity.
Qed.

(** What a successful [curve_trace] read and built. *)
Lemma curve_trace_ok_inv nph fn cx cy lb k t :
  curve_trace nph fn cx cy lb k = Ok t ->
  exists xs ys lab,
    nth_error cx k = Some xs /\ nth_error cy k = Some ys /\ nth_error lb k = Some lab /\
    downsample xs ys = Ok (trace_x t, trace_y t) /\ attack_label lab = Ok (trace_name t) /\
    marker_color t = potfile_color nph (fst lab) /\ legendgroup t = fn /\
    legendgrouptitle_text t = (if Nat.eqb k 0 then Some fn else None).
Proof.
  unfold curve_trace, py_index.
  destruct (nth_error cx k) as [xs|] eqn:Ex; cbn [bind]; [|discriminate].
  destruct (Nat.ltb 1000 (List.length xs)) eqn:El.
  - destruct (nth_error cy k) as [ys|] eqn:Ey; cbn [bind]; [|discriminate].
    destruct (downsample xs ys) as [[xs' ys']|] eqn:Ed; cbn [bind]; [|discriminate].
    destruct (nth_error lb k) as [lab|] eqn:Eb; cbn [bind]; [|discriminate].
    destruct (attack_label lab) as [n|] eqn:En; cbn [bind]; [|discriminate].
    intros [= <-]. exists xs, ys, lab. cbn. auto 10.
  - destruct (nth_error lb k) as [lab|] eqn:Eb; cbn [bind]; [|discriminate].
    destruct (attack_label lab) as [n|] eqn:En; cbn [bind]; [|discriminate].
    destruct (nth_error cy k) as [ys|] eqn:Ey; cbn [bind]; [|discriminate].
    intros [= <-]. exists xs, ys, lab. cbn.
    split; [reflexivity|]. split; [reflexivity|]. split; [reflexivity|].
    split; [unfold downsample; rewrite El; reflexivity|]. auto.
Qed.

(** On a well-formed curve index, [curve_trace] fails exactly on a bad label. *)
Lemma curve_trace_cases nph fn cx cy lb k xs ys lab :
  nth_error cx k = Some xs -> nth_error cy k = Some ys -> nth_error lb k = Some lab ->
  List.length ys = List.length xs ->
  (label_ok lab = true -> exists t, curve_trace nph fn cx cy lb k = Ok t) /\
  (label_ok lab = false -> curve_trace nph fn cx cy lb k = Error AttributeError).
Proof.
  intros Ex Ey Eb Hl.
  destruct (downsample_ok xs ys Hl) as (xs' & ys' & Ed & _).
  unfold curve_trace, py_index. rewrite Ex, Eb. cbn [bind].
  split; intros Hok.
  - destruct (proj1 (attack_label_cases lab) Hok) as (n & En & _).
    destruct (Nat.ltb 1000 (List.length xs));
      rewrite ?Ey; cbn [bind]; rewrite ?Ed; cbn [bind]; rewrite En; cbn [bind]; eauto.
  - rewrite (proj2 (attack_label_cases lab) Hok).
    destruct (Nat.ltb 1000 (List.length xs)); rewrite ?Ey; cbn [bind]; rewrite ?Ed; reflexivity.
Qed.

Lemma file_traces_ok_inv nph fn cx cy lb ts :
  file_traces nph fn (cx, cy, lb) = Ok ts ->
  List.length ts = List.length cx /\
  forall k t, nth_error ts k = Some t -> curve_trace nph fn cx cy lb k = Ok t.
Proof.
  unfold file_traces. intros H. destruct (map_result_ok _ _ _ H) as [Hl Hn].
  rewrite length_seq in Hl. split; [exact Hl|].
  intros k t Ht. destruct (Hn k t Ht) as (a & Ea & Hf).
  destruct (nth_error_seq0 _ _ _ Ea) as [-> _]. exact Hf.
Qed.

(** The figure code builds the traces of a parsed file exactly when every
    label's [guess_mod] is [None] or a string, one trace per curve; a label
    with another [guess_mod] (a JSON number, list, object or boolean) makes
    it raise [AttributeError]. *)
Theorem file_traces_label_check json_loads p fs cx cy lb nph fn
  (H : parse_status_file json_loads p fs = Ok (cx, cy, lb)) :
  match file_traces nph fn (cx, cy, lb) with
  | Ok ts => List.length ts = List.length cx /\ Forall (fun k => label_ok k = true) lb
  | Error e => e = AttributeError /\ Exists (fun k => label_ok k = false) lb
  end.
Proof.
  destruct (parse_status_file_pair _ _ _ _ _ _ H) as (H1 & H2 & Hp).
  assert (Hidx : forall k, (k < List.length cx)%nat ->
            exists xs ys lab, nth_error cx k = Some xs /\ nth_error cy k = Some ys /\
                              nth_error lb k = Some lab /\ List.length ys = List.length xs).
  { intros k Hk.
    destruct (nth_error cx k) as [xs|] eqn:Ex; [|apply nth_error_None in Ex; lia].
    destruct (Forall2_nth_error _ _ _ Hp k xs Ex) as (ys & Ey & Hl).
    destruct (nth_error lb k) as [lab|] eqn:Eb; [|apply nth_error_None in Eb; lia].
    exists xs, ys, lab. auto. }
  destruct (file_traces nph fn (cx, cy, lb)) as [ts|e] eqn:Ef.
  - destruct (file_traces_ok_inv _ _ _ _ _ _ Ef) as [Hl _]. split; [exact Hl|].
    apply Forall_forall. intros lab Hin.
    destruct (In_nth_error _ _ Hin) as (k & Ek).
    assert (Hk : (k < List.length cx)%nat) by (rewrite H1, H2; apply nth_error_Some; congruence).
    destruct (Hidx k Hk) as (xs & ys & lab' & Ex & Ey & Eb & Hl').
    rewrite Ek in Eb. injection Eb as <-.
    destruct (label_ok lab) eqn:Eok; [reflexivity|].
    unfold file_traces in Ef.
    destruct (map_result_ok_all _ _ _ Ef k ltac:(apply in_seq; lia)) as (t & Et).
    rewrite (proj2 (curve_trace_cases nph fn _ _ _ _ _ _ _ Ex Ey Ek Hl') Eok) in Et. discriminate.
  - unfold file_traces in Ef. destruct (map_result_error _ _ _ Ef) as (k & Hin & Ek).
    apply in_seq in Hin.
    destruct (Hidx k ltac:(lia)) as (xs & ys & lab & Ex & Ey & Eb & Hl').
    destruct (curve_trace_cases nph fn _ _ _ _ _ _ _ Ex Ey Eb Hl') as [Hok Hbad].
    destruct (label_ok lab) eqn:Eok.
    + destruct (Hok eq_refl) as (t & Et). congruence.
    + rewrite (Hbad eq_refl) in Ek. injection Ek as <-. split; [reflexivity|].
      apply Exists_exists. exists lab. split; [apply nth_error_In with k; exact Eb | exact Eok].
Qed.

Lemma file_traces_label_check_witness :
  parse_status_file dash_loads (mk_parser "b.json" "guesses" "percentage" 1) two_files
    = Ok ([[0; 10]], [[YObj (PInt 0); YFloat float_2]], [("unknown/dict1"%string, PInt 3)]) /\
  match file_traces false "b" ([[0; 10]], [[YObj (PInt 0); YFloat float_2]], [("unknown/dict1"%string, PInt 3)]) with
  | Ok ts => List.length ts = List.length [[0; 10]] /\
             Forall (fun k => label_ok k = true) [("unknown/dict1"%string, PInt 3)]
  | Error e => e = AttributeError /\ Exists (fun k => label_ok k = false) [("unknown/dict1"%string, PInt 3)]
  end.
Proof.
  assert (H : parse_status_file dash_loads (mk_parser "b.json" "guesses" "percentage" 1) two_files
              = Ok ([[0; 10]], [[YObj (PInt 0); YFloat float_2]], [("unknown/dict1"%string, PInt 3)]))
    by (vm_compute; reflexivity).
  split; [exact H|].
  exact (file_traces_label_check dash_loads _ two_files _ _ _ false "b" H).
Defined.

(** Each trace of a parsed file plots the downsampled curve of its index,
    with as many x values as y values. *)
Theorem file_traces_curves json_loads p fs cx cy lb nph fn ts
  (H : parse_status_file json_loads p fs = Ok (cx, cy, lb))
  (Hf : file_traces nph fn (cx, cy, lb) = Ok ts) :
  forall k t, nth_error ts k = Some t ->
    downsample (nth k cx []) (nth k cy []) = Ok (trace_x t, trace_y t) /\
    List.length (trace_x t) = List.length (trace_y t).
Proof.
  destruct (parse_status_file_pair _ _ _ _ _ _ H) as (H1 & H2 & Hp).
  destruct (file_traces_ok_inv _ _ _ _ _ _ Hf) as [_ Hn].
  intros k t Ht.
  destruct (curve_trace_ok_inv _ _ _ _ _ _ _ (Hn k t Ht))
    as (xs & ys & lab & Ex & Ey & Eb & Ed & _).
  rewrite (nth_error_nth _ _ _ Ex), (nth_error_nth _ _ _ Ey).
  split; [exact Ed|].
  destruct (Forall2_nth_error _ _ _ Hp k xs Ex) as (ys' & Ey' & Hl).
  rewrite Ey in Ey'. injection Ey' as <-.
  destruct (downsample_ok xs ys (eq_sym Hl)) as (xs' & ys' & Ed' & Hl').
  rewrite Ed in Ed'. injection Ed' as <- <-. exact Hl'.
Qed.

Lemma file_traces_curves_witness :
  exists ts, file_traces false "a" (sample_cx, sample_cy, sample_lb) = Ok ts /\
    forall k t, nth_error ts k = Some t ->
      downsample (nth k sample_cx []) (nth k sample_cy []) = Ok (trace_x t, trace_y t) /\
      List.length (trace_x t) = List.length (trace_y t).
Proof.
  eexists. split; [vm_compute; reflexivity|].
  apply (file_traces_curves sample_loads default_parser (file_of sample_lines)
           sample_cx sample_cy sample_lb false "a"); vm_compute; reflexivity.
Defined.

(** ** Trace colours *)

Lemma figure_traces_colors json_loads fs path_stem nph ps : forall idx ts,
  figure_traces json_loads fs path_stem nph idx ps = Ok ts ->
  Forall (fun t => exists lab : key, marker_color t = potfile_color nph (fst lab)) ts.
Proof.
  induction ps as [|[fp p] rest IH]; intros idx ts H; cbn [figure_traces] in H.
  - injection H as <-. constructor.
  - destruct (parse_status_file json_loads p fs) as [out|] eqn:Eo; cbn [bind] in H; [|discriminate].
    destruct (file_traces nph (path_stem fp) out) as [ts1|] eqn:E1; cbn [bind] in H; [|discriminate].
    destruct (figure_traces json_loads fs path_stem nph (S idx) rest) as [ts2|] eqn:E2;
      cbn [bind] in H; [|discriminate].
    injection H as <-. apply Forall_app. split; [|exact (IH _ _ E2)].
    destruct out as [[cx cy] lb].
    destruct (file_traces_ok_inv _ _ _ _ _ _ E1) as [_ Hn].
    apply Forall_forall. intros t Hin. destruct (In_nth_error _ _ Hin) as (k & Ek).
    destruct (curve_trace_ok_inv _ _ _ _ _ _ _ (Hn k t Ek)) as (xs & ys & lab & _ & _ & _ & _ & _ & Hc & _).
    eauto.
Qed.

(** The file colour palette is never applied to a trace: every trace of
    the figure is black or has no colour, and none is black when potfile
    highlighting is turned off. *)
Theorem create_figure_colors json_loads fs path_stem a fig
  (H : create_figure json_loads fs path_stem a = Ok fig) :
  Forall (fun t => marker_color t = None \/ marker_color t = Some "black"%string) (fig_traces fig) /\
  (no_potfile_highlight a = true -> Forall (fun t => marker_color t = None) (fig_traces fig)).
Proof.
  unfold create_figure in H.
  destruct (figure_traces json_loads fs path_stem (no_potfile_highlight a) 0 (parsers a)) as [ts|] eqn:E;
    cbn [bind] in H; [|discriminate].
  injection H as <-. cbn [fig_traces].
  assert (Hc := figure_traces_colors _ _ _ _ _ _ _ E).
  split.
  - eapply Forall_impl; [|exact Hc]. intros t (lab & ->). unfold potfile_color.
    destruct (_ && _); auto.
  - intros Hn. rewrite Hn in Hc. eapply Forall_impl; [|exact Hc]. intros t (lab & ->).
    unfold potfile_color. rewrite andb_false_r. reflexivity.
Qed.

Lemma create_figure_colors_witness :
  exists fig, create_figure sample_loads (file_of sample_lines) stem_of
                (init_app (FilesOne "status.json")) = Ok fig /\
  Forall (fun t => marker_color t = None \/ marker_color t = Some "black"%string) (fig_traces fig) /\
  (no_potfile_highlight (init_app (FilesOne "status.json")) = true ->
   Forall (fun t => marker_color t = None) (fig_traces fig)).
Proof.
  eexists. split; [vm_compute; reflexivity|].
  apply (create_figure_colors sample_loads (file_of sample_lines) stem_of
           (init_app (FilesOne "status.json"))). vm_compute; reflexivity.
Defined.

(** ** The parsers of the app *)

Lemma dict_set_keys {V : Type} (d : list (string * V)) k v :
  map fst (dict_set d k v) =
  if in_dec string_dec k (map fst d) then map fst d else map fst d ++ [k].
Proof.
  induction d as [|[k' v'] t IH]; cbn [dict_set map fst]; [reflexivity|].
  destruct (String.eqb k' k) eqn:E.
  - apply String.eqb_eq in E. subst k'.
    destruct (in_dec string_dec k (k :: map fst t)) as [_|n]; [reflexivity|].
    exfalso; apply n; left; reflexivity.
  - apply String.eqb_neq in E. cbn [map fst]. rewrite IH.
    destruct (in_dec string_dec k (map fst t)) as [i|n];
      destruct (in_dec string_dec k (k' :: map fst t)) as [i'|n'].
    + reflexivity.
    + exfalso; apply n'; right; exact i.
    + destruct i' as [e|i']; [congruence | contradiction].
    + reflexivity.
Qed.

Lemma dict_set_Forall {V : Type} (P : string * V -> Prop) d k v :
  Forall P d -> (forall k', String.eqb k' k = true -> P (k', v)) -> P (k, v) ->
  Forall P (dict_set d k v).
Proof.
  intros Hd Hk Hkv. induction Hd as [|[k' v'] t Hp Ht IH]; cbn [dict_set].
  - repeat constructor; exact Hkv.
  - destruct (String.eqb k' k) eqn:E; constructor; auto.
Qed.

Lemma nodup_app_same (l m m' : list string) :
  nodup string_dec m = nodup string_dec m' -> (forall x, In x m <-> In x m') ->
  nodup string_dec (l ++ m) = nodup string_dec (l ++ m').
Proof.
  intros Hn Hi. induction l as [|a l IH]; cbn [List.app]; [exact Hn|].
  cbn [nodup]. rewrite IH.
  destruct (in_dec string_dec a (l ++ m)) as [i|n]; destruct (in_dec string_dec a (l ++ m')) as [i'|n'];
    auto; exfalso.
  - apply n'. apply in_app_or in i as [i|i]; apply in_or_app; [left | right; apply Hi]; auto.
  - apply n. apply in_app_or in i' as [i'|i']; apply in_or_app; [left | right; apply Hi]; auto.
Qed.

Lemma nodup_NoDup_id (l : list string) : NoDup l -> nodup string_dec l = l.
Proof.
  induction 1 as [|a l Ha Hl IH]; cbn [nodup]; [reflexivity|].
  destruct (in_dec string_dec a l) as [i|_]; [contradiction | rewrite IH; reflexivity].
Qed.

Lemma fold_dict_set_keys {V : Type} (mk : string -> V) files : forall d,
  NoDup (map fst d) ->
  map fst (fold_left (fun d f => dict_set d f (mk f)) files d)
    = rev (nodup string_dec (rev (map fst d ++ files))).
Proof.
  induction files as [|f fs IH]; intros d Hd; cbn [fold_left].
  - rewrite app_nil_r, nodup_NoDup_id, rev_involutive; [reflexivity|].
    apply NoDup_rev, Hd.
  - assert (Hk := dict_set_keys d f (mk f)).
    assert (Hd' : NoDup (map fst (dict_set d f (mk f)))).
    { rewrite Hk. destruct (in_dec string_dec f (map fst d)) as [i|n]; [exact Hd|].
      apply NoDup_app; [exact Hd | repeat constructor; auto |].
      intros x Hx [<-|[]]. contradiction. }
    rewrite (IH _ Hd'). f_equal.
    rewrite !rev_app_distr.
    change (f :: fs) with ([f] ++ fs). rewrite rev_app_distr.
    rewrite <- app_assoc.
    apply nodup_app_same.
    + rewrite Hk. cbn [rev List.app].
      destruct (in_dec string_dec f (map fst d)) as [i|n].
      * cbn [nodup]. destruct (in_dec string_dec f (rev (map fst d))) as [_|n];
          [|exfalso; apply n, in_rev; rewrite rev_involutive; exact i].
        reflexivity.
      * rewrite rev_app_distr. cbn [rev List.app]. reflexivity.
    + intros x. rewrite Hk. cbn [rev List.app].
      destruct (in_dec string_dec f (map fst d)) as [i|n].
      * split; [intros Hx; right; exact Hx | intros [<-|Hx]; [apply in_rev; rewrite rev_involutive |]; auto].
      * rewrite rev_app_distr. cbn [rev List.app]. tauto.
Qed.

(** [update_parsers] makes one parser per distinct file, in the order the
    files are first listed (a file given twice is parsed and drawn once),
    each with the file as its [filename] and the app's current settings. *)
Theorem update_parsers_one_per_file a :
  map fst (parsers (update_parsers a)) = rev (nodup string_dec (rev (hashcat_files a))) /\
  NoDup (map fst (parsers (update_parsers a))) /\
  Forall (fun fp => snd fp = mk_parser (fst fp) (app_x_axis_type a) (app_y_axis_type a)
                                       (app_status_timer a))
         (parsers (update_parsers a)).
Proof.
  unfold update_parsers. cbn [parsers].
  assert (Hk := fold_dict_set_keys
                  (fun f => mk_parser f (app_x_axis_type a) (app_y_axis_type a) (app_status_timer a))
                  (hashcat_files a) [] (NoDup_nil _)).
  cbn [map List.app] in Hk. rewrite Hk.
  split; [reflexivity|]. split; [apply NoDup_rev, NoDup_nodup|]. clear Hk.
  generalize (@nil (string * parser)) (Forall_nil (fun fp : string * parser =>
     snd fp = mk_parser (fst fp) (app_x_axis_type a) (app_y_axis_type a) (app_status_timer a))).
  induction (hashcat_files a) as [|f fs IH]; intros d Hd; cbn [fold_left]; [exact Hd|].
  apply IH. apply dict_set_Forall; [exact Hd | | reflexivity].
  intros k' Ek. apply String.eqb_eq in Ek. subst k'. reflexivity.
Qed.

(** ** The dashboard callback *)

(** Pressing Update with a number [r] in the refresh field sets the
    interval to [r * 1000], takes the chosen axes and highlight setting,
    rebuilds every parser with the new axes, and returns the new interval
    with the figure of the new settings; the new settings are kept even
    when building the figure raises. *)
Theorem callback_update_settings json_loads fs path_stem a r x_axis y_axis ph :
  let '(a', res) := update_graph_and_settings json_loads fs path_stem a
                      (Some "update-button.n_clicks"%string) (PInt r) x_axis y_axis ph in
  update_interval a' = PInt (r * 1000) /\
  app_x_axis_type a' = x_axis /\ app_y_axis_type a' = y_axis /\
  no_potfile_highlight a' = negb (existsb (String.eqb "highlight") ph) /\
  hashcat_files a' = hashcat_files a /\
  Forall (fun fp => snd fp = mk_parser (fst fp) x_axis y_axis (app_status_timer a)) (parsers a') /\
  res = (fig <- create_figure json_loads fs path_stem a' ;; Ok (PInt (r * 1000), fig)).
Proof.
  unfold update_graph_and_settings. cbn [String.eqb py_mul bind].
  match goal with |- context [update_parsers ?b] => set (a0 := b) end.
  destruct (update_parsers_one_per_file a0) as (_ & _ & Hf).
  repeat split; try exact Hf.
Qed.

(** Pressing Update with the refresh field empty ([None]) makes the
    callback raise [TypeError] before any setting changes. *)
Theorem callback_empty_refresh json_loads fs path_stem a x_axis y_axis ph :
  update_graph_and_settings json_loads fs path_stem a (Some "update-button.n_clicks"%string)
    PNone x_axis y_axis ph = (a, Error TypeError).
Proof. reflexivity. Qed.

(** ** Startup *)

(** [main] exits with status 1 and names the first listed file that does
    not exist, when there is one; otherwise it starts an app whose parsers
    are built for the listed files. *)
Theorem main_run_files fs files :
  match main_run fs files with
  | MainExit code msg =>
      code = 1 /\
      exists pre f post, files = pre ++ f :: post /\ fs f = None /\
        Forall (fun g => fs g <> None) pre /\
        msg = String.append "Error: File '" (String.append f "' not found!")
  | MainRun a => Forall (fun g => fs g <> None) files /\ a = init_app (FilesList files)
  end.
Proof.
  unfold main_run.
  assert (Hm : match first_missing fs files with
               | Some f => exists pre post, files = pre ++ f :: post /\ fs f = None /\
                                            Forall (fun g => fs g <> None) pre
               | None => Forall (fun g => fs g <> None) files
               end).
  { induction files as [|g t IH]; cbn [first_missing]; [constructor|].
    destruct (fs g) as [ls|] eqn:Eg.
    - destruct (first_missing fs t) as [f|].
      + destruct IH as (pre & post & -> & Hf & Hpre). exists (g :: pre), post.
        split; [reflexivity|]. split; [exact Hf|]. constructor; [congruence | exact Hpre].
      + constructor; [congruence | exact IH].
    - exists [], t. split; [reflexivity|]. split; [exact Eg | constructor]. }
  destruct (first_missing fs files) as [f|].
  - destruct Hm as (pre & post & Hf & Hn & Hpre). split; [reflexivity|].
    exists pre, f, post. auto.
  - split; [exact Hm | reflexivity].
Qed.

(** ** Downsampling keeps the first point and only points of the curve *)

Lemma in_skipn_in {A : Type} n : forall (t : list A) b, In b (skipn n t) -> In b t.
Proof.
  induction n as [|n IH]; intros t b Hb; [exact Hb|].
  destruct t as [|c t']; [destruct Hb|]. right. apply IH, Hb.
Qed.

Lemma slice_step_aux_incl {A : Type} (s : nat) f : forall (l : list A), incl (slice_step_aux f s l) l.
Proof.
  induction f as [|f IH]; intros l; cbn [slice_step_aux]; [intros a []|].
  destruct l as [|a t]; [intros b []|].
  intros b [<-|Hb]; [left; reflexivity|].
  right. apply IH in Hb. apply (in_skipn_in (s - 1)), Hb.
Qed.

Lemma slice_step_hd {A : Type} (l : list A) : hd_error (slice_step sample_rate l) = hd_error l.
Proof. destruct l; reflexivity. Qed.

Lemma last_opt_app_r {A : Type} (l1 l2 : list A) :
  l2 <> [] -> last_opt (l1 ++ l2) = last_opt l2.
Proof.
  intros H. unfold last_opt. rewrite rev_app_distr.
  destruct (rev l2) as [|a t] eqn:E; [|reflexivity].
  apply (f_equal (@rev A)) in E. rewrite rev_involutive in E. contradiction.
Qed.

Lemma last_opt_py_last {A : Type} (l : list A) a : py_last l = Ok a -> last_opt l = Some a.
Proof.
  unfold py_last, last_opt. destruct (rev l); [discriminate|]. intros E; injection E as ->.
  reflexivity.
Qed.

Lemma slice_step_aux_last {A : Type} (s : nat) (Hs : (0 < s)%nat) f :
  forall (l : list A) q, List.length l = (1 + s * q)%nat -> (List.length l <= f)%nat ->
  last_opt (slice_step_aux f s l) = last_opt l.
Proof.
  induction f as [|f IH]; intros l q Hl Hf; [lia|].
  destruct l as [|a t]; [cbn in Hl; lia|]. cbn [slice_step_aux].
  destruct q as [|q].
  - destruct t as [|b t]; [|cbn in Hl; lia].
    rewrite skipn_nil. destruct f; reflexivity.
  - cbn [List.length] in Hl, Hf. rewrite Nat.mul_succ_r in Hl.
    assert (Hk : List.length (skipn (s - 1) t) = (1 + s * q)%nat) by (rewrite length_skipn; lia).
    assert (Hne : skipn (s - 1) t <> []) by (intros E; rewrite E in Hk; cbn in Hk; lia).
    assert (Ht : t <> []) by (intros ->; rewrite skipn_nil in Hne; contradiction).
    assert (Hr : slice_step_aux f s (skipn (s - 1) t) <> []).
    { destruct f as [|f]; [lia|].
      destruct (skipn (s - 1) t); [contradiction | discriminate]. }
    rewrite (last_opt_app_r [a] _ Hr : last_opt (a :: _) = _), (last_opt_app_r [a] t Ht : last_opt (a :: t) = _).
    rewrite (IH _ q Hk ltac:(lia)).
    rewrite <- (firstn_skipn (s - 1) t) at 2. rewrite last_opt_app_r by exact Hne.
    reflexivity.
Qed.

(** Downsampling keeps the first and the last point of a curve (the last
    y value when the y list is as long as the x list) and keeps only points
    of the curve (in x and in y). *)
Theorem downsample_keeps_points {A B : Type} (xs : list A) (ys : list B) xs' ys'
  (H : downsample xs ys = Ok (xs', ys')) :
  hd_error xs' = hd_error xs /\ hd_error ys' = hd_error ys /\ incl xs' xs /\ incl ys' ys /\
  last_opt xs' = last_opt xs /\
  (List.length ys = List.length xs -> last_opt ys' = last_opt ys).
Proof.
  unfold downsample in H.
  destruct (Nat.ltb 1000 (List.length xs)) eqn:E;
    [|injection H as <- <-; repeat split; try apply incl_refl; reflexivity].
  apply Nat.ltb_lt in E.
  destruct (negb _) eqn:Em.
  - destruct (py_last xs) as [lx|] eqn:Ex; cbn [bind] in H; [|discriminate].
    destruct (py_last ys) as [ly|] eqn:Ey; cbn [bind] in H; [|discriminate].
    injection H as <- <-.
    assert (Hxs : xs <> []) by (intros ->; cbn in E; lia).
    assert (Hys : ys <> []) by (intros ->; discriminate).
    split; [destruct xs; [congruence | reflexivity]|].
    split; [destruct ys; [congruence | reflexivity]|].
    split; [|split]; [apply incl_app; try apply slice_step_aux_incl;
                      intros a [<-|[]]; apply py_last_In; assumption ..|].
    rewrite last_opt_app_r, (last_opt_py_last _ _ Ex) by discriminate.
    split; [reflexivity|]. intros _.
    rewrite last_opt_app_r, (last_opt_py_last _ _ Ey) by discriminate. reflexivity.
  - injection H as <- <-. rewrite !slice_step_hd.
    split; [reflexivity|]. split; [reflexivity|].
    split; [apply slice_step_aux_incl|]. split; [apply slice_step_aux_incl|].
    apply negb_false_iff, Nat.eqb_eq in Em.
    assert (Hq : List.length xs = (1 + sample_rate * ((List.length xs - 1) / sample_rate))%nat).
    { pose proof (Nat.div_mod_eq (List.length xs - 1) sample_rate) as Hd.
      rewrite Em in Hd. lia. }
    unfold slice_step.
    split; [exact (slice_step_aux_last sample_rate ltac:(cbv; lia) _ _ _ Hq (le_n _))|].
    intros Hl. rewrite <- Hl in Hq.
    exact (slice_step_aux_last sample_rate ltac:(cbv; lia) _ _ _ Hq (le_n _)).
Qed.

Lemma downsample_keeps_points_witness :
  hd_error (slice_step sample_rate (seq 0 1002) ++ [1001%nat]) = hd_error (seq 0 1002) /\
  incl (slice_step sample_rate (seq 0 1002) ++ [1001%nat]) (seq 0 1002) /\
  last_opt (slice_step sample_rate (seq 0 1002) ++ [1001%nat]) = last_opt (seq 0 1002).
Proof.
  destruct (downsample_keeps_points (seq 0 1002) (seq 0 1002)
              (slice_step sample_rate (seq 0 1002) ++ [1001%nat])
              (slice_step sample_rate (seq 0 1002) ++ [1001%nat])) as (H1 & _ & H3 & _ & H5 & _).
  - vm_compute. reflexivity.
  - split; [exact H1|]. split; [exact H3 | exact H5].
Defined.

(** ** Where the x values of the curves come from *)

Lemma axis_values_progress p st d g x y :
  axis_values p st d = Ok (g, x, y) ->
  record_progress d = Some (g - guesses st) /\
  x = (if String.eqb (x_axis_type p) "time" then elapsed_seconds st else g).
Proof.
  unfold axis_values. destruct d as [| | | | |dd]; cbn [py_get bind]; try discriminate.
  destruct (dict_get dd "progress") as [v|] eqn:Ep.
  - destruct v as [|bv|zv|sv|lv|dv]; cbn [py_subscript bind]; try discriminate.
    + destruct (String.get 0 sv); cbn [bind py_add py_num]; discriminate.
    + destruct lv as [|h lv]; cbn [nth_error bind]; [discriminate|].
      unfold py_add. destruct (py_num h) as [z|] eqn:Eh; cbn [bind]; [|discriminate].
      destruct (recovered_y p _) as [yv|]; cbn [bind]; [|discriminate].
      intros [= <- <- _]. cbn [record_progress]. rewrite Ep, Eh.
      split; [f_equal; lia | reflexivity].
  - cbn [py_subscript nth_error bind py_add py_num].
    destruct (recovered_y p _) as [yv|]; cbn [bind]; [|discriminate].
    intros [= <- <- _]. cbn [record_progress]. rewrite Ep.
    split; [f_equal; lia | reflexivity].
Qed.

Lemma append_last_inv {A : Type} (l : list (list A)) a l' :
  append_last l a = Ok l' -> exists l0 c, l = l0 ++ [c] /\ l' = l0 ++ [c ++ [a]].
Proof.
  intros H. destruct l as [|c0 t]; [discriminate|].
  destruct (list_snoc (c0 :: t) ltac:(discriminate)) as (l0 & c & E).
  rewrite E, append_last_app in H. injection H as <-. eauto.
Qed.

Lemma update_curves_fields st x y k st' :
  update_curves st x y k = Ok st' ->
  guesses st' = guesses st /\ elapsed_seconds st' = elapsed_seconds st /\
  last_opt (last (curves_x st') []) = Some x.
Proof.
  intros Hup.
  destruct (update_curves_cases _ _ _ _ _ Hup)
    as [[Hc ->] | [(c & lx & ly & Hc & Hk & Hlx & Hly & ->) | (c & cx & cy & Hc & Hk & Hax & Hay & ->)]];
    cbn [guesses elapsed_seconds curves_x]; split; auto; split; auto.
  - rewrite List.last_last. reflexivity.
  - rewrite List.last_last. reflexivity.
  - destruct (append_last_inv _ _ _ Hax) as (l0 & c0 & _ & ->).
    rewrite List.last_last. apply last_opt_app.
Qed.

Lemma process_record_fields p st d st' :
  process_record p st d = Ok st' ->
  record_progress d = Some (guesses st' - guesses st) /\
  elapsed_seconds st' = elapsed_seconds st + status_timer p /\
  last_opt (last (curves_x st') []) =
    Some (if String.eqb (x_axis_type p) "time" then elapsed_seconds st else guesses st').
Proof.
  intros H.
  destruct (process_record_cases _ _ _ _ H) as (g & x & y & k & st'' & Hax & _ & Hup & ->).
  destruct (axis_values_progress _ _ _ _ _ _ Hax) as [Hp Hx].
  destruct (update_curves_fields _ _ _ _ _ Hup) as (Hg & He & Hl).
  cbn [guesses elapsed_seconds curves_x] in *.
  rewrite Hg, He. split; [exact Hp|]. split; [reflexivity|]. rewrite Hl, Hx. reflexivity.
Qed.

Lemma process_records_fields p rs : forall st st',
  process_records p st rs = Ok st' ->
  (exists s, progress_total rs = Some s /\ guesses st' = guesses st + s) /\
  elapsed_seconds st' = elapsed_seconds st + Z.of_nat (List.length rs) * status_timer p /\
  (rs <> [] -> last_opt (last (curves_x st') []) =
     Some (if String.eqb (x_axis_type p) "time"
           then elapsed_seconds st' - status_timer p else guesses st')).
Proof.
  induction rs as [|d t IH]; intros st st' H; cbn [process_records] in H.
  - injection H as <-. split; [exists 0; split; [reflexivity | lia]|].
    split; [cbn; lia | congruence].
  - destruct (process_record p st d) as [s1|] eqn:E; cbn [bind] in H; [|discriminate].
    destruct (process_record_fields _ _ _ _ E) as (Hp & He & Hl).
    destruct (IH _ _ H) as ((s & Hs & Hg) & He' & Hl').
    split; [exists (guesses s1 - guesses st + s); cbn [progress_total]; rewrite Hp, Hs;
            split; [reflexivity | lia]|].
    split; [rewrite He', He, length_cons, Nat2Z.inj_succ; lia|].
    intros _. destruct t as [|d' t'].
    + cbn [process_records] in H. injection H as <-. rewrite Hl, He.
      f_equal. destruct (String.eqb _ _); lia.
    + apply Hl'. discriminate.
Qed.

(** In guesses mode the curves end at the sum of the [progress[0]] values
    of all decodable records; in time mode at [(n - 1) * status_timer] for
    [n] decodable records. *)
Theorem parse_final_x json_loads p fs rs cx cy lb
  (H : parse_status_file json_loads p fs = Ok (cx, cy, lb))
  (Hs : source_records json_loads p fs = Ok rs) (Hne : rs <> []) :
  last_opt (last cx []) =
    if String.eqb (x_axis_type p) "time"
    then Some ((Z.of_nat (List.length rs) - 1) * status_timer p)
    else progress_total rs.
Proof.
  rewrite (parse_status_file_records _ _ _ _ Hs) in H.
  destruct (process_records p init_state _) as [st|] eqn:E; cbn [bind] in H; [|discriminate].
  injection H as <- _ _.
  destruct (process_records_fields _ _ _ _ E) as ((s & Hs' & Hg) & He & Hl).
  rewrite (Hl Hne), Hs', He, Hg. cbn [elapsed_seconds guesses init_state].
  destruct (String.eqb _ _); f_equal; lia.
Qed.

Lemma parse_final_x_witness :
  source_records sample_loads default_parser (file_of sample_lines)
    = Ok [rec_b "dict1"; rec_b "dict1"; rec_b potfile_long] /\
  last_opt (last sample_cx []) = progress_total [rec_b "dict1"; rec_b "dict1"; rec_b potfile_long].
Proof.
  split; [vm_compute; reflexivity|].
  exact (parse_final_x sample_loads default_parser (file_of sample_lines)
           [rec_b "dict1"; rec_b "dict1"; rec_b potfile_long] sample_cx sample_cy sample_lb
           ltac:(vm_compute; reflexivity) ltac:(vm_compute; reflexivity) ltac:(discriminate)).
Defined.

(** ** The x values of every curve are non-decreasing *)

Lemma nondecreasing_snoc l x :
  nondecreasing l = true -> Forall (fun z => z <= x) l -> nondecreasing (l ++ [x]) = true.
Proof.
  induction l as [|a t IH]; intros Hn Hb; [reflexivity|].
  inversion Hb as [|? ? Ha Ht]; subst.
  destruct t as [|b t'].
  - cbn. apply Z.leb_le in Ha. rewrite Ha. reflexivity.
  - cbn [List.app nondecreasing] in Hn |- *. apply andb_true_iff in Hn as [Hab Hn].
    rewrite Hab. apply IH; assumption.
Qed.

Lemma last_point_In {A : Type} (l : list (list A)) a :
  last_point l = Ok a -> exists c, In c l /\ In a c.
Proof.
  unfold last_point. intros H.
  destruct l as [|c0 t]; [discriminate|].
  destruct (list_snoc (c0 :: t) ltac:(discriminate)) as (l0 & c & E). rewrite E in H |- *.
  rewrite List.last_last in H. exists c. split; [apply in_or_app; right; left; reflexivity|].
  destruct c as [|c1 c']; [discriminate|].
  destruct (rev (c1 :: c')) as [|b r] eqn:Er; [discriminate|].
  injection H as <-. apply in_rev. rewrite Er. left; reflexivity.
Qed.

Lemma update_curves_mono st x y k st' (B : Z) :
  Forall (fun c => nondecreasing c = true /\ Forall (fun z => z <= B) c) (curves_x st) ->
  0 <= B -> B <= x ->
  update_curves st x y k = Ok st' ->
  Forall (fun c => nondecreasing c = true /\ Forall (fun z => z <= x) c) (curves_x st').
Proof.
  intros Hf HB Hx Hup.
  assert (Hw : Forall (fun c => nondecreasing c = true /\ Forall (fun z => z <= x) c) (curves_x st)).
  { refine (Forall_impl _ _ Hf). intros c [Hc Hz]. split; [exact Hc|].
    refine (Forall_impl _ _ Hz). intros z Hz'. lia. }
  destruct (update_curves_cases _ _ _ _ _ Hup)
    as [[Hc ->] | [(c & lx & ly & Hc & Hk & Hlx & Hly & ->) | (c & cx & cy & Hc & Hk & Hax & Hay & ->)]];
    cbn [curves_x].
  - apply Forall_app. split; [exact Hw|]. constructor; [|constructor].
    split; [cbn; apply andb_true_iff; split; [apply Z.leb_le; lia | reflexivity]|].
    repeat constructor; lia.
  - apply Forall_app. split; [exact Hw|].
    destruct (last_point_In _ _ Hlx) as (c0 & Hc0 & Hl0).
    rewrite Forall_forall in Hf. destruct (Hf c0 Hc0) as [_ Hz].
    rewrite Forall_forall in Hz. assert (Hlx' := Hz lx Hl0).
    constructor; [|constructor].
    split; [cbn; apply andb_true_iff; split; [apply Z.leb_le; lia | reflexivity]|].
    repeat constructor; lia.
  - destruct (append_last_inv _ _ _ Hax) as (l0 & c0 & E & ->). rewrite E in Hw.
    apply Forall_app in Hw as [Hw0 Hwc]. inversion Hwc as [|? ? [Hn Hz] _]; subst.
    apply Forall_app. split; [exact Hw0|]. constructor; [|constructor].
    split; [apply nondecreasing_snoc; assumption|].
    apply Forall_app. split; [exact Hz | repeat constructor; lia].
Qed.

Lemma process_records_mono p rs : forall st st',
  (if String.eqb (x_axis_type p) "time" then 0 <= status_timer p
   else Forall (fun d => forall z, record_progress d = Some z -> 0 <= z) rs) ->
  0 <= (if String.eqb (x_axis_type p) "time" then elapsed_seconds st else guesses st) ->
  Forall (fun c => nondecreasing c = true /\
                   Forall (fun z => z <= if String.eqb (x_axis_type p) "time"
                                         then elapsed_seconds st else guesses st) c) (curves_x st) ->
  process_records p st rs = Ok st' ->
  Forall (fun c => nondecreasing c = true) (curves_x st').
Proof.
  induction rs as [|d t IH]; intros st st' Hm HB Hf H; cbn [process_records] in H.
  - injection H as <-. refine (Forall_impl _ _ Hf). intros c [Hc _]; exact Hc.
  - destruct (process_record p st d) as [s1|] eqn:E; cbn [bind] in H; [|discriminate].
    destruct (process_record_cases _ _ _ _ E) as (g & x & y & k & st'' & Hax & _ & Hup & Es1).
    destruct (axis_values_progress _ _ _ _ _ _ Hax) as [Hp Hx].
    destruct (update_curves_fields _ _ _ _ _ Hup) as (Hg & He & _).
    cbn [guesses elapsed_seconds] in Hg, He.
    assert (Hprog : String.eqb (x_axis_type p) "time" = false -> 0 <= g - guesses st).
    { intros Et. rewrite Et in Hm. inversion Hm as [|? ? Hd _]; subst. apply (Hd _ Hp). }
    set (B := if String.eqb (x_axis_type p) "time" then elapsed_seconds st else guesses st) in *.
    assert (HBx : B <= x).
    { unfold B. rewrite Hx. destruct (String.eqb (x_axis_type p) "time") eqn:Et; [lia|].
      specialize (Hprog eq_refl). lia. }
    assert (Hmono := update_curves_mono (mk_state g (current_identifier st) (elapsed_seconds st)
                                               (curves_x st) (curves_y st) (label_list st))
                                        _ _ _ _ B Hf HB HBx Hup).
    apply (IH s1); [| | |exact H].
    + destruct (String.eqb (x_axis_type p) "time"); [exact Hm|].
      inversion Hm; assumption.
    + rewrite Es1. cbn [elapsed_seconds guesses]. rewrite Hg, He.
      unfold B in HBx, HB. rewrite Hx in HBx.
      destruct (String.eqb (x_axis_type p) "time") eqn:Et; [|lia].
      try rewrite Et in Hm. lia.
    + rewrite Es1. cbn [elapsed_seconds guesses curves_x]. rewrite Hg, He.
      refine (Forall_impl _ _ Hmono). intros c [Hc Hz]. split; [exact Hc|].
      refine (Forall_impl _ _ Hz). intros z Hz'. rewrite Hx in Hz'.
      destruct (String.eqb (x_axis_type p) "time") eqn:Et; [try rewrite Et in Hm; lia | exact Hz'].
Qed.

(** The x values along every curve never decrease, in guesses mode when no
    record has a negative [progress[0]], and in time mode when
    [status_timer] is not negative. *)
Theorem parse_x_nondecreasing json_loads p fs rs cx cy lb
  (H : parse_status_file json_loads p fs = Ok (cx, cy, lb))
  (Hs : source_records json_loads p fs = Ok rs)
  (Hm : if String.eqb (x_axis_type p) "time" then 0 <= status_timer p
        else Forall (fun d => forall z, record_progress d = Some z -> 0 <= z) rs) :
  Forall (fun c => nondecreasing c = true) cx.
Proof.
  rewrite (parse_status_file_records _ _ _ _ Hs) in H.
  destruct (process_records p init_state _) as [st|] eqn:E; cbn [bind] in H; [|discriminate].
  injection H as <- _ _.
  apply (process_records_mono p _ init_state st Hm); [| constructor | exact E].
  cbn. destruct (String.eqb _ _); lia.
Qed.

Lemma parse_x_nondecreasing_witness :
  source_records sample_loads default_parser (file_of sample_lines)
    = Ok [rec_b "dict1"; rec_b "dict1"; rec_b potfile_long] /\
  Forall (fun d => forall z, record_progress d = Some z -> 0 <= z)
         [rec_b "dict1"; rec_b "dict1"; rec_b potfile_long] /\
  Forall (fun c => nondecreasing c = true) sample_cx.
Proof.
  assert (Hs : source_records sample_loads default_parser (file_of sample_lines)
                 = Ok [rec_b "dict1"; rec_b "dict1"; rec_b potfile_long])
    by (vm_compute; reflexivity).
  assert (Hm : Forall (fun d => forall z, record_progress d = Some z -> 0 <= z)
                      [rec_b "dict1"; rec_b "dict1"; rec_b potfile_long]).
  { repeat (apply Forall_cons; [intros z Hz; vm_compute in Hz; injection Hz as <-; vm_compute; congruence|]).
    apply Forall_nil. }
  split; [exact Hs|]. split; [exact Hm|].
  exact (parse_x_nondecreasing sample_loads default_parser (file_of sample_lines)
           _ sample_cx sample_cy sample_lb ltac:(vm_compute; reflexivity) Hs Hm).
Defined.

(** ** Appending lines to a status file only extends the curves *)

Lemma curves_grow_refl {A : Type} (l : list (list A)) : curves_grow l l.
Proof.
  destruct l as [|c t]; [left; reflexivity|right].
  destruct (list_snoc (c :: t) ltac:(discriminate)) as (l0 & a & E).
  exists l0, a, [], []. rewrite E, app_nil_r, app_nil_r. split; reflexivity.
Qed.

Lemma curves_grow_snoc {A : Type} (l : list (list A)) c : curves_grow l (l ++ [c]).
Proof.
  destruct l as [|c1 t]; [left; reflexivity|right].
  destruct (list_snoc (c1 :: t) ltac:(discriminate)) as (l0 & a & E).
  exists l0, a, [], [c]. rewrite E, app_nil_r, <- app_assoc. split; reflexivity.
Qed.

Lemma curves_grow_trans {A : Type} (l1 l2 l3 : list (list A)) :
  curves_grow l1 l2 -> curves_grow l2 l3 -> curves_grow l1 l3.
Proof.
  intros [->|(c0 & c & e & rest & E1 & E2)] H23; [left; reflexivity|].
  destruct H23 as [E|(d0 & d & f & rest' & E3 & E4)].
  { subst l2. destruct c0; discriminate. }
  right. subst l1 l3.
  destruct rest as [|r0 rt _] using rev_ind.
  - rewrite app_nil_r in E2. rewrite E2 in E3.
    apply app_inj_tail in E3 as [<- <-].
    exists c0, c, (e ++ f), rest'. rewrite <- !app_assoc. split; reflexivity.
  - rewrite E2 in E3.
    rewrite (app_assoc [c ++ e] rt [r0]), (app_assoc c0 ([c ++ e] ++ rt) [r0]) in E3.
    apply app_inj_tail in E3 as [<- <-].
    exists c0, c, e, (rt ++ [r0 ++ f] ++ rest').
    split; [reflexivity|]. rewrite <- !app_assoc. reflexivity.
Qed.

Lemma append_last_grow {A : Type} (l : list (list A)) a l' :
  append_last l a = Ok l' -> curves_grow l l'.
Proof.
  intros H. apply append_last_inv in H as (l0 & c & -> & ->).
  right. exists l0, c, [a], []. rewrite app_nil_r. split; reflexivity.
Qed.

Lemma process_record_grows p st d st' :
  process_record p st d = Ok st' ->
  curves_grow (curves_x st) (curves_x st') /\ curves_grow (curves_y st) (curves_y st') /\
  exists lnew, label_list st' = label_list st ++ lnew.
Proof.
  intros H.
  destruct (process_record_cases _ _ _ _ H) as (g & x & y & k & st'' & _ & _ & Hup & ->).
  cbn [curves_x curves_y label_list].
  destruct (update_curves_cases _ _ _ _ _ Hup)
    as [[_ ->] | [(c & lx & ly & _ & _ & _ & _ & ->) | (c & cx & cy & _ & _ & Hax & Hay & ->)]];
    cbn [curves_x curves_y label_list] in *.
  - split; [apply curves_grow_snoc|]. split; [apply curves_grow_snoc|]. eauto.
  - split; [apply curves_grow_snoc|]. split; [apply curves_grow_snoc|]. eauto.
  - split; [exact (append_last_grow _ _ _ Hax)|].
    split; [exact (append_last_grow _ _ _ Hay)|].
    exists []. rewrite app_nil_r. reflexivity.
Qed.

Lemma parse_lines_app json_loads p ls more : forall st,
  parse_lines json_loads p st (ls ++ more) =
  (st1 <- parse_lines json_loads p st ls ;; parse_lines json_loads p st1 more).
Proof.
  induction ls as [|line rest IH]; intros st; [reflexivity|].
  cbn [app parse_lines].
  destruct (utf8_chars line) as [chars|]; [|reflexivity].
  destruct (negb (py_startswith (py_strip chars) "{")); [apply IH|].
  destruct (json_loads (py_strip chars)) as [data| |e]; [|apply IH|reflexivity].
  destruct (process_record p st data) as [st1|e]; cbn [bind]; [apply IH|reflexivity].
Qed.

Lemma parse_lines_grows json_loads p lines : forall st st',
  parse_lines json_loads p st lines = Ok st' ->
  curves_grow (curves_x st) (curves_x st') /\ curves_grow (curves_y st) (curves_y st') /\
  exists lnew, label_list st' = label_list st ++ lnew.
Proof.
  induction lines as [|line rest IH]; intros st st' H.
  - injection H as <-. split; [apply curves_grow_refl|]. split; [apply curves_grow_refl|].
    exists []. rewrite app_nil_r. reflexivity.
  - cbn [parse_lines] in H.
    destruct (utf8_chars line) as [chars|]; [|discriminate].
    destruct (negb (py_startswith (py_strip chars) "{")); [exact (IH _ _ H)|].
    destruct (json_loads (py_strip chars)) as [data| |e]; [|exact (IH _ _ H)|discriminate].
    destruct (process_record p st data) as [st1|e] eqn:E; cbn [bind] in H; [|discriminate].
    destruct (process_record_grows _ _ _ _ E) as (Hx1 & Hy1 & l1 & Hl1).
    destruct (IH _ _ H) as (Hx2 & Hy2 & l2 & Hl2).
    split; [exact (curves_grow_trans _ _ _ Hx1 Hx2)|].
    split; [exact (curves_grow_trans _ _ _ Hy1 Hy2)|].
    exists (l1 ++ l2). rewrite Hl2, Hl1, app_assoc. reflexivity.
Qed.

(** When lines are appended to the status file and the longer file parses,
    the shorter file parsed too, and each new curve list extends the old one:
    the old last curve only gains points at its end, new curves come after it,
    and the old labels are a prefix of the new ones. *)
Theorem parse_grows json_loads p fs fs' ls more out'
  (Hfs : fs (filename p) = Some ls) (Hfs' : fs' (filename p) = Some (ls ++ more))
  (H : parse_status_file json_loads p fs' = Ok out') :
  exists out, parse_status_file json_loads p fs = Ok out /\ output_grows out out'.
Proof.
  unfold parse_status_file in *. rewrite Hfs. rewrite Hfs', parse_lines_app in H.
  destruct (parse_lines json_loads p init_state ls) as [st1|e] eqn:E1; cbn [bind] in H; [|discriminate].
  destruct (parse_lines json_loads p st1 more) as [st2|e] eqn:E2; cbn [bind] in H; [|discriminate].
  injection H as <-. exists (state_output st1). split; [reflexivity|].
  unfold output_grows, state_output. exact (parse_lines_grows _ _ _ _ _ E2).
Qed.

Lemma parse_grows_witness :
  file_of (firstn 2 sample_lines) "status.json" = Some (firstn 2 sample_lines) /\
  file_of sample_lines "status.json" = Some ((firstn 2 sample_lines) ++ skipn 2 sample_lines) /\
  parse_status_file sample_loads default_parser (file_of sample_lines) = Ok (sample_cx, sample_cy, sample_lb) /\
  exists out, parse_status_file sample_loads default_parser (file_of (firstn 2 sample_lines)) = Ok out /\
              output_grows out (sample_cx, sample_cy, sample_lb).
Proof.
  assert (H1 : file_of (firstn 2 sample_lines) "status.json" = Some (firstn 2 sample_lines))
    by (vm_compute; reflexivity).
  assert (H2 : file_of sample_lines "status.json" = Some ((firstn 2 sample_lines) ++ skipn 2 sample_lines))
    by (vm_compute; reflexivity).
  assert (H3 : parse_status_file sample_loads default_parser (file_of sample_lines) = Ok (sample_cx, sample_cy, sample_lb))
    by (vm_compute; reflexivity).
  split; [exact H1|]. split; [exact H2|]. split; [exact H3|].
  exact (parse_grows sample_loads default_parser _ _ _ _ _ H1 H2 H3).
Defined.
